(** * Training and evaluation loop of the frame-semantic parser (src/main.py)

    A shallow embedding of [train_model], [test_model] and [main].

    Conventions.
    - Python floats and tensor entries are modelled by canonical rationals
      ([Qc]): comparisons and the arithmetic of the loop are exact, rounding
      is not modelled.
    - Tensors that the program only reads are values (lists, lists of lists).
      The parameter tensors of the network are mutated in place by the
      optimizer, so they live in a store of tensor storages and are reached
      through locations; a state dict is a table of such locations.
    - The network ([models.BiLSTM]), the loss and the optimizer update rule
      are collaborators of the loop and enter as interfaces. *)

From Stdlib Require Import QArith Qcanon.
From stdpp Require Import base option numbers list strings gmap.

Local Open Scope Qc_scope.

(** ** Numbers *)

Module Num.

(** Embedding of Python integers into floats. *)
Definition of_Z (z : Z) : Qc := Q2Qc (inject_Z z).
Definition of_nat (n : nat) : Qc := of_Z (Z.of_nat n).

(** The literal [0.4]. *)
Definition threshold : Qc := Q2Qc (4 # 10).

(** [x > y] on floats, as a boolean. *)
Definition gtb (x y : Qc) : bool := bool_decide (y < x).

End Num.

(** ** Tensors that are only read *)

Definition vector (A : Type) := list A.
Definition matrix (A : Type) := list (list A).

Section tensor_ops.
Context {A : Type}.

(** [t.size(0)] and [len(t)] of a tensor with at least one dimension. *)
Definition size0 (t : list A) : nat := length t.

(** [np.append(a, b, axis=0)]. *)
Definition np_append (a b : matrix A) : matrix A := a ++ b.

End tensor_ops.

(** [torch.where(pred > t, ones, zeros)] for [ones], [zeros] of the shape of
    [pred]: entrywise selection between [1.] and [0.]. *)
Definition select (t p : Qc) : Qc := if Num.gtb p t then 1 else 0.

Definition where_gt (t : Qc) (pred : matrix Qc) : matrix Qc :=
  map (map (select t)) pred.

(** The number of positive entries of a prediction matrix. *)
Definition positives (row : vector Qc) : nat := length (filter (λ x, x = 1) row).

Definition count_positive (m : matrix Qc) : nat := sum_list (map positives m).

(** [torch.stack(ts, dim=1)] on one-dimensional tensors: the tensors become
    the columns of the result.  Raises (here [None]) on an empty sequence and
    when the tensors differ in length. *)
Definition torch_stack1 {A} `{Inhabited A} (ts : list (vector A)) : option (matrix A) :=
  match ts with
  | [] => None
  | t :: _ =>
      if forallb (λ u, Nat.eqb (length u) (length t)) ts
      then Some (map (λ i, map (λ u, u !!! i) ts) (seq 0 (length t)))
      else None
  end.

(** [np.append(a, b, axis=0)] where [a] has [cols] columns: the rows of [b]
    are added below those of [a]; raises when [b] has another width. *)
Definition np_append_rows {A} (cols : nat) (a b : matrix A) : option (matrix A) :=
  if forallb (λ row, Nat.eqb (length row) cols) b then Some (np_append a b) else None.

(** Python's [x / n] for a float [x] and an int [n]: raises ZeroDivisionError
    when [n] is zero. *)
Definition py_div (x : Qc) (n : nat) : option Qc :=
  match n with
  | O => None
  | S _ => Some (x / Num.of_nat n)
  end.

(** ** The label set *)

Definition frame_classes : list string :=
  ["PERSON"; "LOC"; "ORG"; "WORK_OF_ART"; "PRODUCT"; "EVENT"; "OTHER"]%string.

Definition no_of_classes : nat := length frame_classes.

(** ** Metrics (sklearn.metrics), on multilabel indicator matrices

    [y_true] holds the integer targets, [y_pred] the thresholded predictions
    ([0.] and [1.]).  Both functions raise when the two matrices differ in
    their number of rows. *)

Module Sklearn.

Definition nonzero_true (t : Z) : bool := negb (Z.eqb t 0).
Definition nonzero_pred (p : Qc) : bool := negb (bool_decide (p = 0)).

Definition row_equal (t : vector Z) (p : vector Qc) : bool :=
  bool_decide (map Num.of_Z t = p).

(** [accuracy_score]: the fraction of samples whose whole label row is
    predicted exactly (subset accuracy).  On no sample at all sklearn gives
    nan; the ratio here is 0. *)
Definition accuracy_score (y_true : matrix Z) (y_pred : matrix Qc) : option Qc :=
  if Nat.eqb (length y_true) (length y_pred) then
    Some (Num.of_nat (length (filter (λ tp, row_equal tp.1 tp.2 = true) (zip y_true y_pred)))
          / Num.of_nat (length y_true))
  else None.

(** Counts over all samples and classes. *)
Definition tp_sum (y_true : matrix Z) (y_pred : matrix Qc) : nat :=
  sum_list (zip_with (λ t p,
    length (filter (λ tp, nonzero_true tp.1 && nonzero_pred tp.2 = true) (zip t p)))
    y_true y_pred).
Definition pred_sum (y_pred : matrix Qc) : nat :=
  sum_list (map (λ p, length (filter (λ x, nonzero_pred x = true) p)) y_pred).
Definition true_sum (y_true : matrix Z) : nat :=
  sum_list (map (λ t, length (filter (λ x, nonzero_true x = true) t)) y_true).

(** A ratio with sklearn's zero-division convention: a zero denominator
    gives [0.]  ([Qcdiv] has the same convention: [x / 0 = 0]). *)
Definition ratio (num den : nat) : Qc := Num.of_nat num / Num.of_nat den.

(** [precision_recall_fscore_support(y_true, y_pred, average="micro")],
    without the support entry the program discards. *)
Definition precision_recall_fscore (y_true : matrix Z) (y_pred : matrix Qc)
  : option (Qc * Qc * Qc) :=
  if Nat.eqb (length y_true) (length y_pred) then
    let tp := tp_sum y_true y_pred in
    let precision := ratio tp (pred_sum y_pred) in
    let recall := ratio tp (true_sum y_true) in
    let f_score := (1 + 1) * precision * recall / (precision + recall) in
    Some (precision, recall, f_score)
  else None.

End Sklearn.

(** ** Parameter tensors, state dicts and checkpoints (torch)

    A parameter tensor is a mutable object: the optimizer and
    [load_state_dict] write into its storage.  [nn.Module.state_dict()] returns
    a dictionary whose values share their storage with the parameters, so a
    state dict is a table of locations, not of contents; [torch.save]
    serialises the contents as they are at the time of the call. *)

Definition loc := positive.
Definition tensor := list Qc.
Abbreviation store := (gmap loc tensor).
Definition state_dict := list (string * loc).
Definition checkpoint := list (string * tensor).

(** Hyper-parameters of the network fixed at construction. *)
Record ModelCfg := {
  hidden_dim : Z;
  dropout : Qc;
  attention_layer : bool;
}.

(** A network object: its configuration and its named parameters. *)
Record NnModule := {
  cfg : ModelCfg;
  named_parameters : list (string * loc);
}.

Module Torch.

(** [model.state_dict()]: the parameters themselves, under their names. *)
Definition get_state_dict (model : NnModule) : state_dict := named_parameters model.

(** The contents of the tensors of a state dict. *)
Definition contents (sd : state_dict) (h : store) : option checkpoint :=
  mapM (λ nl, v ← h !! nl.2; Some (nl.1, v)) sd.

(** The current values of the parameters of a network, in order. *)
Definition parameter_values (model : NnModule) (h : store) : option (list tensor) :=
  mapM (λ nl, h !! nl.2) (named_parameters model).

(** In-place assignment of new values to the parameters (what
    [optimizer.step()] does with the values it computed). *)
Fixpoint assign (ps : list (string * loc)) (vs : list tensor) (h : store) : store :=
  match ps, vs with
  | (_, l) :: ps', v :: vs' => assign ps' vs' (<[l := v]> h)
  | _, _ => h
  end.

Definition lookup_name {A} (name : string) (d : list (string * A)) : option A :=
  ina ← list_find (λ na, na.1 = name) d; Some ina.2.2.

(** [model.load_state_dict(sd)] (strict): for every parameter, in order,
    [param.copy_(sd[name])], reading the source tensor when the copy is
    made; a missing key raises. *)
Fixpoint copy_params (ps : list (string * loc)) (sd : state_dict) (h : store)
  : option store :=
  match ps with
  | [] => Some h
  | (name, l) :: ps' =>
      src ← lookup_name name sd;
      v ← h !! src;
      copy_params ps' sd (<[l := v]> h)
  end.

Definition load_state_dict (model : NnModule) (sd : state_dict) (h : store)
  : option store :=
  copy_params (named_parameters model) sd h.

(** [torch.save(sd, path)]: the file receives the contents of the tensors. *)
Definition save (sd : state_dict) (path : string) (h : store)
    (disk : gmap string checkpoint) : option (gmap string checkpoint) :=
  c ← contents sd h; Some (<[path := c]> disk).

(** [torch.load(path)]: fresh tensors holding the contents of the file;
    raises when the file does not exist. *)
Fixpoint materialize (c : checkpoint) (h : store) : state_dict * store :=
  match c with
  | [] => ([], h)
  | (name, v) :: c' =>
      let l := fresh (dom h) in
      let '(sd, h') := materialize c' (<[l := v]> h) in
      ((name, l) :: sd, h')
  end.

Definition load (path : string) (h : store) (disk : gmap string checkpoint)
  : option (state_dict * store) :=
  c ← disk !! path; Some (materialize c h).

End Torch.

(** ** Collaborators of the loop *)

(** Modelled from the spec: [models.BiLSTM] is not among the sources.  The
    constructor draws the initial parameters; a forward pass returns the
    logits and the probabilities ([pred] is the entrywise sigmoid of
    [outputs], of the same shape).  Dropout is active only in training mode,
    so only the training-mode pass consumes randomness. *)
Class Network (Rng : Type) := {
  init_parameters : ModelCfg → Rng → checkpoint * Rng;
  forward_train : ModelCfg → Rng → list tensor → matrix Z
                  → option (matrix Qc * matrix Qc * Rng);
  forward_eval : ModelCfg → list tensor → matrix Z → option (matrix Qc * matrix Qc);
}.

(** [nn.BCEWithLogitsLoss()]: the mean loss of a batch; raises on a shape
    mismatch between logits and targets. *)
Class Loss := {
  criterion : matrix Qc → matrix Qc → option Qc;
}.

(** [loss.backward()]: the gradient of the batch loss with respect to the
    parameters, for the training-mode pass run from the given generator
    state. *)
Class Autograd (Rng : Type) := {
  gradients : ModelCfg → Rng → list tensor → matrix Z → matrix Qc → list tensor;
}.

(** [optim.Adam(..., betas=(0.01, 0.999), eps=1e-5)]: the update rule, from
    the learning rate, the optimizer's own state, the parameter values and
    their gradients to the new state and the new values. *)
Class Optimizer (O : Type) := {
  opt_init : O;
  opt_update : Qc → O → list tensor → list tensor → O * list tensor;
}.

(** An optimizer object: it holds the parameters it was built on. *)
Record Optim (O : Type) := {
  opt_params : list (string * loc);
  opt_lr : Qc;
  opt_state : O;
}.
Arguments opt_params {O} _.
Arguments opt_lr {O} _.
Arguments opt_state {O} _.

(** [lr_scheduler.StepLR(optimizer, step_size, gamma)]. *)
Record StepLR := {
  step_size : Z;
  gamma : Qc;
}.

(** ** Data *)

Inductive Phase := train | val.

Global Instance Phase_eq_dec : EqDecision Phase.
Proof. solve_decision. Defined.

(** One batch as the iterator yields it: the text tensor, and the tuple of
    the target tensors, one per label field (so one per frame class). *)
Record Batch := {
  inputs : matrix Z;
  labels : list (vector Z);
}.

(** How the iterator lays a batch out (torchtext).  The text field of
    main.py, [Field(sequential=True, lower=True, init_token="<bos>",
    eos_token="<eos>")], keeps the default [batch_first=False]: the examples
    of a batch are framed by [<bos>] and [<eos>], padded to the longest one,
    and the tensor is time-major, of shape (sequence length, batch size).
    The label fields are not sequential: each gives one tensor of shape
    (batch size). *)
Module Torchtext.

Definition pad_id : Z := 1.
Definition bos_id : Z := 2.
Definition eos_id : Z := 3.

(** [Field.pad] on one example. *)
Definition pad_example (max_len : nat) (x : list Z) : list Z :=
  bos_id :: x ++ eos_id :: replicate (max_len - length x) pad_id.

Definition max_length (examples : list (list Z)) : nat :=
  foldr Nat.max 0%nat (map length examples).

(** [Field.process]: pad, then transpose. *)
Definition text_tensor (examples : list (list Z)) : matrix Z :=
  let max_len := max_length examples in
  let padded := map (pad_example max_len) examples in
  map (λ t, map (λ x, x !!! t) padded) (seq 0 (max_len + 2)).

(** The batch for a list of examples, each a token sequence with its row of
    labels: one target tensor per class. *)
Definition make_batch (examples : list (list Z * vector Z)) : Batch :=
  {| inputs := text_tensor (map fst examples);
     labels := map (λ c, map (λ e, e.2 !!! c) examples) (seq 0 no_of_classes) |}.

End Torchtext.

(** An iterator over a dataset.  [batches_of_pass k] is what the [k]-th
    iteration over it yields (the training iterator reshuffles for every
    pass); [len(loader)] is the number of batches of a pass. *)
Record DataLoader := {
  dataset_len : nat;
  batches_of_pass : nat → list Batch;
}.

Definition loader_len (dl : DataLoader) (pass : nat) : nat :=
  length (batches_of_pass dl pass).

(** ** Output *)

Inductive LogLine :=
  | LogEpoch (epoch num_epochs : nat)
  | LogRule
  | LogProgress (epoch seen total : nat) (percent loss : Qc)
  | LogPhase (ph : Phase) (loss acc precision recall f1 : Qc)
  | LogElapsed
  | LogBestAcc (x : Qc)
  | LogBestPrecision (x : Qc)
  | LogBestRecall (x : Qc)
  | LogBestF1 (x : Qc)
  | PrintTest (acc precision recall f1 : Qc)
  | LogInfo (msg : string).

(** What [visualize.plot_loss] draws. *)
Record Figure := {
  fig_x : list Qc;
  fig_train : list Qc;
  fig_valid : list Qc;
}.

(** ** Program state *)

Record State (Rng O : Type) := {
  heap : store;
  training : bool;
  rng : Rng;
  optimizer : Optim O;
  disk : gmap string checkpoint;
  graphs : gmap string Figure;
  log : list LogLine;
}.
Arguments heap {Rng O} _.
Arguments training {Rng O} _.
Arguments rng {Rng O} _.
Arguments optimizer {Rng O} _.
Arguments disk {Rng O} _.
Arguments graphs {Rng O} _.
Arguments log {Rng O} _.

Section loop.
Context {Rng O : Type}.
Context `{!Network Rng, !Loss, !Autograd Rng, !Optimizer O}.

Abbreviation St := (State Rng O).

Definition with_heap (h : store) (s : St) : St :=
  {| heap := h; training := training s; rng := rng s; optimizer := optimizer s;
     disk := disk s; graphs := graphs s; log := log s |}.
Definition with_training (b : bool) (s : St) : St :=
  {| heap := heap s; training := b; rng := rng s; optimizer := optimizer s;
     disk := disk s; graphs := graphs s; log := log s |}.
Definition with_rng (r : Rng) (s : St) : St :=
  {| heap := heap s; training := training s; rng := r; optimizer := optimizer s;
     disk := disk s; graphs := graphs s; log := log s |}.
Definition with_optimizer (o : Optim O) (s : St) : St :=
  {| heap := heap s; training := training s; rng := rng s; optimizer := o;
     disk := disk s; graphs := graphs s; log := log s |}.
Definition with_disk (d : gmap string checkpoint) (s : St) : St :=
  {| heap := heap s; training := training s; rng := rng s; optimizer := optimizer s;
     disk := d; graphs := graphs s; log := log s |}.
Definition with_graphs (g : gmap string Figure) (s : St) : St :=
  {| heap := heap s; training := training s; rng := rng s; optimizer := optimizer s;
     disk := disk s; graphs := g; log := log s |}.

(** [logging.info(...)] and [print(...)]. *)
Definition emit (line : LogLine) (s : St) : St :=
  {| heap := heap s; training := training s; rng := rng s; optimizer := optimizer s;
     disk := disk s; graphs := graphs s; log := log s ++ [line] |}.

(** [model(inputs)] in the current mode of the network. *)
Definition model_call (model : NnModule) (x : matrix Z) (s : St)
  : option (matrix Qc * matrix Qc * St) :=
  ps ← Torch.parameter_values model (heap s);
  if training s then
    '(outputs, pred, r) ← forward_train (cfg model) (rng s) ps x;
    Some (outputs, pred, with_rng r s)
  else
    '(outputs, pred) ← forward_eval (cfg model) ps x;
    Some (outputs, pred, s).

(** [loss.backward(retain_graph=True); optimizer.step()], for the pass that
    was run from generator state [r0] on parameter values [ps].  Gradients
    do not outlive the batch here: [optimizer.zero_grad()] clears them
    before every pass. *)
Definition backward_and_step (model : NnModule) (r0 : Rng) (x : matrix Z)
    (targets : matrix Qc) (s : St) : option St :=
  ps ← Torch.parameter_values model (heap s);
  let grads := gradients (cfg model) r0 ps x targets in
  let opt := optimizer s in
  vs ← mapM (λ nl, heap s !! nl.2) (opt_params opt);
  let '(o', vs') := opt_update (opt_lr opt) (opt_state opt) vs grads in
  Some (with_optimizer
          {| opt_params := opt_params opt; opt_lr := opt_lr opt; opt_state := o' |}
          (with_heap (Torch.assign (opt_params opt) vs' (heap s)) s)).

(** The accumulators of one phase of one epoch. *)
Record Running := {
  running_loss : Qc;
  y_true : matrix Z;
  y_pred : matrix Qc;
}.

Definition running_init : Running :=
  {| running_loss := 0; y_true := []; y_pred := [] |}.

(** The body of the loop over the batches (main.py, lines 76 to 110). *)
Definition batch_step (model : NnModule) (phase : Phase) (epoch : nat)
    (dataset_size n_batches : nat) (batch_idx : nat) (b : Batch)
    (s : St) (a : Running) : option (St * Running) :=
  targets ← torch_stack1 (labels b);
  let r0 := rng s in
  '(outputs, pred, s1) ← model_call model (inputs b) s;
  let predicted := where_gt Num.threshold pred in
  let targets_float := map (map Num.of_Z) targets in
  loss ← criterion outputs targets_float;
  s2 ← (if decide (phase = train)
        then backward_and_step model r0 (inputs b) targets_float s1
        else Some s1);
  yt ← np_append_rows no_of_classes (y_true a) targets;
  yp ← np_append_rows no_of_classes (y_pred a) predicted;
  let rl := running_loss a + loss * Num.of_nat (size0 (inputs b)) in
  s3 ← (if decide (phase = train ∧ batch_idx `mod` 50 = 0)%nat
        then
          percent ← py_div (Num.of_nat 100 * Num.of_nat (batch_idx + 1)) n_batches;
          Some (emit (LogProgress (epoch + 1) ((batch_idx + 1) * length (labels b))
                                  dataset_size percent loss) s2)
        else Some s2);
  Some (s3, {| running_loss := rl; y_true := yt; y_pred := yp |}).

(** [for batch_idx, (inputs, labels) in enumerate(loader)]. *)
Fixpoint batch_loop (model : NnModule) (phase : Phase) (epoch : nat)
    (dataset_size n_batches : nat) (batch_idx : nat) (bs : list Batch)
    (s : St) (a : Running) : option (St * Running) :=
  match bs with
  | [] => Some (s, a)
  | b :: bs' =>
      '(s', a') ← batch_step model phase epoch dataset_size n_batches batch_idx b s a;
      batch_loop model phase epoch dataset_size n_batches (S batch_idx) bs' s' a'
  end.

End loop.

(** ** Command line *)

Module Args.
Record t := {
  batch_size : nat;
  test : bool;
  epochs : nat;
  lr : Qc;
  weight_decay : Qc;
  dropout : Qc;
  momentum : Qc;
  step : Z;
  gamma : Qc;
  hidden_size : Z;
  num_layers : Z;
  attention : bool;
}.
End Args.

(** ** [train_model] *)

(** The per-epoch loss history, [model_loss["train"]] and [model_loss["val"]]. *)
Record ModelLoss := {
  loss_train : list Qc;
  loss_val : list Qc;
}.

Definition model_loss_set (phase : Phase) (epoch : nat) (x : Qc) (ml : ModelLoss)
  : ModelLoss :=
  match phase with
  | train => {| loss_train := <[epoch := x]> (loss_train ml); loss_val := loss_val ml |}
  | val => {| loss_train := loss_train ml; loss_val := <[epoch := x]> (loss_val ml) |}
  end.

(** The local variables of [train_model] that live across epochs. *)
Record Locals := {
  best_model_wts : state_dict;
  best_acc : Qc;
  best_recall : Qc;
  best_precision : Qc;
  best_f1 : Qc;
  model_loss : ModelLoss;
}.

(** What one phase of one epoch measures. *)
Record Measured := {
  epoch_loss : Qc;
  epoch_acc : Qc;
  epoch_precision : Qc;
  epoch_recall : Qc;
  epoch_f1 : Qc;
}.

Definition checkpoint_path (model_name : string) : string :=
  ("./models/" ++ model_name ++ ".pt")%string.

Section train_model.
Context {Rng O : Type}.
Context `{!Network Rng, !Loss, !Autograd Rng, !Optimizer O}.

Abbreviation St := (State Rng O).

(** Lines 53 to 56. *)
Definition locals_init (model : NnModule) (num_epochs : nat) : Locals :=
  {| best_model_wts := Torch.get_state_dict model;
     best_acc := 0; best_recall := 0; best_precision := 0; best_f1 := 0;
     model_loss := {| loss_train := replicate num_epochs 0;
                      loss_val := replicate num_epochs 0 |} |}.

(** Lines 63 to 114: set the mode, run over the batches of the phase,
    compute the loss and the metrics of the epoch. *)
Definition measure_phase (model : NnModule) (dataloaders : Phase → DataLoader)
    (epoch : nat) (phase : Phase) (s : St) : option (St * Measured) :=
  let s0 := with_training (bool_decide (phase = train)) s in
  let dl := dataloaders phase in
  let bs := batches_of_pass dl epoch in
  '(s1, a) ← batch_loop model phase epoch (dataset_len dl) (loader_len dl epoch)
                        0 bs s0 running_init;
  loss ← py_div (running_loss a) (dataset_len dl);
  acc ← Sklearn.accuracy_score (y_true a) (y_pred a);
  '(precision, recall, f1) ← Sklearn.precision_recall_fscore (y_true a) (y_pred a);
  Some (s1, {| epoch_loss := loss; epoch_acc := acc; epoch_precision := precision;
               epoch_recall := recall; epoch_f1 := f1 |}).

(** Lines 116 to 128: record the loss, log the phase, keep the best. *)
Definition keep_best (model : NnModule) (model_name : string) (epoch : nat)
    (phase : Phase) (m : Measured) (s : St) (l : Locals) : option (St * Locals) :=
  let ml := model_loss_set phase epoch (epoch_loss m) (model_loss l) in
  let s1 := emit (LogPhase phase (epoch_loss m) (epoch_acc m) (epoch_precision m)
                           (epoch_recall m) (epoch_f1 m)) s in
  if decide (phase = val ∧ best_f1 l < epoch_f1 m) then
    let wts := Torch.get_state_dict model in
    d ← Torch.save wts (checkpoint_path model_name) (heap s1) (disk s1);
    Some (with_disk d s1,
          {| best_model_wts := wts; best_acc := epoch_acc m;
             best_recall := epoch_recall m; best_precision := epoch_precision m;
             best_f1 := epoch_f1 m; model_loss := ml |})
  else
    Some (s1,
          {| best_model_wts := best_model_wts l; best_acc := best_acc l;
             best_recall := best_recall l; best_precision := best_precision l;
             best_f1 := best_f1 l; model_loss := ml |}).

Definition run_phase (model : NnModule) (model_name : string)
    (dataloaders : Phase → DataLoader) (epoch : nat) (phase : Phase)
    (s : St) (l : Locals) : option (St * Locals) :=
  '(s1, m) ← measure_phase model dataloaders epoch phase s;
  keep_best model model_name epoch phase m s1 l.

(** The body of the loop over the epochs: [for phase in ['train', 'val']]. *)
Definition run_epoch (model : NnModule) (model_name : string)
    (dataloaders : Phase → DataLoader) (num_epochs epoch : nat)
    (s : St) (l : Locals) : option (St * Locals) :=
  let s0 := emit LogRule (emit (LogEpoch (epoch + 1) num_epochs) s) in
  '(s1, l1) ← run_phase model model_name dataloaders epoch train s0 l;
  run_phase model model_name dataloaders epoch val s1 l1.

(** [for epoch in ...], over the given epoch numbers. *)
Fixpoint epoch_loop (model : NnModule) (model_name : string)
    (dataloaders : Phase → DataLoader) (num_epochs : nat) (es : list nat)
    (s : St) (l : Locals) : option (St * Locals) :=
  match es with
  | [] => Some (s, l)
  | e :: es' =>
      '(s', l') ← run_epoch model model_name dataloaders num_epochs e s l;
      epoch_loop model model_name dataloaders num_epochs es' s' l'
  end.

(** The state and the locals after the first [n] of [num_epochs] epochs. *)
Definition after_epochs (model : NnModule) (model_name : string)
    (dataloaders : Phase → DataLoader) (num_epochs n : nat) (s : St)
  : option (St * Locals) :=
  epoch_loop model model_name dataloaders num_epochs (seq 0 n) s
             (locals_init model num_epochs).

(** [train_model].  The scheduler and [args] are received and not used:
    the call [scheduler.step()] is commented out in the source. *)
Definition train_model (model : NnModule) (model_name : string)
    (dataloaders : Phase → DataLoader) (scheduler : StepLR) (args : Args.t)
    (num_epochs : nat) (s : St)
  : option (St * (NnModule * ModelLoss * Qc * Qc * Qc)) :=
  '(s1, l) ← after_epochs model model_name dataloaders num_epochs num_epochs s;
  let s2 := emit (LogBestF1 (best_f1 l))
           (emit (LogBestRecall (best_recall l))
           (emit (LogBestPrecision (best_precision l))
           (emit (LogBestAcc (best_acc l))
           (emit LogElapsed s1)))) in
  h ← Torch.load_state_dict model (best_model_wts l) (heap s2);
  Some (with_heap h s2,
        (model, model_loss l, best_precision l, best_recall l, best_f1 l)).

End train_model.

(** ** [test_model] *)

Section test_model.
Context {Rng O : Type}.
Context `{!Network Rng}.

Abbreviation St := (State Rng O).

(** The body of the loop over the held-out batches (lines 152 to 161). *)
Definition test_step (model : NnModule) (b : Batch) (s : St)
    (yt : matrix Z) (yp : matrix Qc) : option (St * matrix Z * matrix Qc) :=
  targets ← torch_stack1 (labels b);
  '(outputs, pred, s1) ← model_call model (inputs b) s;
  let predicted := where_gt Num.threshold pred in
  yt' ← np_append_rows no_of_classes yt targets;
  yp' ← np_append_rows no_of_classes yp predicted;
  Some (s1, yt', yp').

Fixpoint test_loop (model : NnModule) (bs : list Batch) (s : St)
    (yt : matrix Z) (yp : matrix Qc) : option (St * matrix Z * matrix Qc) :=
  match bs with
  | [] => Some (s, yt, yp)
  | b :: bs' =>
      '(s', yt', yp') ← test_step model b s yt yp;
      test_loop model bs' s' yt' yp'
  end.

(** [test_model]: the metrics are printed, the two matrices returned. *)
Definition test_model (model : NnModule) (test_loader : DataLoader) (s : St)
  : option (St * (matrix Z * matrix Qc)) :=
  let s0 := with_training false s in
  '(s1, yt, yp) ← test_loop model (batches_of_pass test_loader 0) s0 [] [];
  test_acc ← Sklearn.accuracy_score yt yp;
  '(test_precision, test_recall, test_f1) ← Sklearn.precision_recall_fscore yt yp;
  Some (emit (PrintTest test_acc test_precision test_recall test_f1) s1, (yt, yp)).

End test_model.

(** ** [visualize.plot_loss] *)

Definition graph_path (model_name : string) : string :=
  ("./graphs/" ++ model_name ++ "_epoch_loss")%string.

(** [np.linspace(1, n, n)]. *)
Definition linspace_1_n (n : nat) : list Qc := map Num.of_nat (seq 1 n).

Definition plot_loss {Rng O} (ml : ModelLoss) (model_name : string)
    (s : State Rng O) : State Rng O :=
  let train_loss := loss_train ml in
  let valid_loss := loss_val ml in
  let epochs := length train_loss in
  with_graphs (<[graph_path model_name :=
                   {| fig_x := linspace_1_n epochs; fig_train := train_loss;
                      fig_valid := valid_loss |}]> (graphs s)) s.

(** ** [main] *)

(** The three datasets behind their iterators, by batch size (the text
    pipeline is a collaborator: [TabularDataset], [BucketIterator]). *)
Record Corpus := {
  train_iter : nat → DataLoader;
  val_iter : nat → DataLoader;
  test_iter : nat → DataLoader;
}.

Section main.
Context {Rng O : Type}.
Context `{!Network Rng, !Loss, !Autograd Rng, !Optimizer O}.

Definition model_name_of (args : Args.t) : string :=
  if negb (Args.attention args) then "BiLSTMNetwork"%string
  else "BiLSTM_AttentionNetwork"%string.

(** [models.BiLSTM(...)]: a network object with freshly allocated
    parameters. *)
Definition new_model (c : ModelCfg) (r : Rng) (h : store) : NnModule * store * Rng :=
  let '(init, r') := init_parameters c r in
  let '(ps, h') := Torch.materialize init h in
  ({| cfg := c; named_parameters := ps |}, h', r').

(** [main(args)], from the generator state and the files present at start.
    Building the scheduler leaves the learning rate of the optimizer at
    [args.lr]. *)
Definition main (corpus : Corpus) (args : Args.t) (r : Rng)
    (files : gmap string checkpoint) (figs : gmap string Figure)
  : option (State Rng O) :=
  let model_name := model_name_of args in
  let '(model, h, r') :=
    new_model {| hidden_dim := Args.hidden_size args;
                 dropout := Args.dropout args;
                 attention_layer := Args.attention args |} r ∅ in
  let opt := {| opt_params := named_parameters model; opt_lr := Args.lr args;
                opt_state := opt_init |} in
  let exp_lr_scheduler := {| step_size := Args.step args; gamma := Args.gamma args |} in
  let s := {| heap := h; training := true; rng := r'; optimizer := opt;
              disk := files; graphs := figs; log := [] |} in
  s' ← (if negb (Args.test args) then
          let dataloaders := λ phase,
            match phase with
            | train => train_iter corpus (Args.batch_size args)
            | val => val_iter corpus (Args.batch_size args)
            end in
          '(s1, ret) ← train_model model model_name dataloaders exp_lr_scheduler
                                   args (Args.epochs args)
                                   (emit (LogInfo "Training...") s);
          let '(_, ml, _, _, _) := ret in
          Some (plot_loss ml model_name s1)
        else
          let loader := test_iter corpus (Args.batch_size args) in
          let s0 := emit (LogInfo "Testing...") s in
          '(sd, h1) ← Torch.load (checkpoint_path model_name) (heap s0) (disk s0);
          h2 ← Torch.load_state_dict model sd h1;
          '(s1, _) ← test_model model loader (with_heap h2 s0);
          Some s1);
  Some (emit (LogInfo "Completed Successfully!") s').

End main.

(** ** Observations used in the statements *)

(** The number of examples of a batch: the length of its target tensors,
    hence the number of rows it adds to [y_true] and [y_pred]. *)
Definition batch_example_count (b : Batch) : nat :=
  match labels b with
  | [] => 0
  | t :: _ => length t
  end.

(** The decision rule, entry by entry: [q] is the label predicted from the
    probability [p]. *)
Definition decided (t p q : Qc) : Prop :=
  (q = 1 ↔ t < p) ∧ (q = 0 ↔ ¬ t < p).

Definition decision_rule (t : Qc) (pred predicted : matrix Qc) : Prop :=
  Forall2 (Forall2 (decided t)) pred predicted.

(** The two outcomes of the best-checkpoint bookkeeping of a phase that
    measured [m], from state [s] and locals [l] to [s'] and [l']: either the
    best metrics become those of the phase and the checkpoint file receives
    the contents of the parameters, or both stay as they were. *)
Definition best_updated {Rng O} (model : NnModule) (model_name : string) (m : Measured)
    (s s' : State Rng O) (l l' : Locals) : Prop :=
  best_acc l' = epoch_acc m ∧ best_precision l' = epoch_precision m ∧
  best_recall l' = epoch_recall m ∧ best_f1 l' = epoch_f1 m ∧
  best_model_wts l' = Torch.get_state_dict model ∧
  ∃ c, Torch.contents (Torch.get_state_dict model) (heap s') = Some c ∧
       disk s' = <[checkpoint_path model_name := c]> (disk s).

Definition best_kept {Rng O} (s s' : State Rng O) (l l' : Locals) : Prop :=
  best_acc l' = best_acc l ∧ best_precision l' = best_precision l ∧
  best_recall l' = best_recall l ∧ best_f1 l' = best_f1 l ∧
  best_model_wts l' = best_model_wts l ∧ disk s' = disk s.

(** The epoch loss as the mean over the examples: every batch loss weighted
    by the number of examples of its batch, over the size of the dataset. *)
Definition example_weighted_loss (losses : list Qc) (bs : list Batch) (n : nat) : Qc :=
  foldr Qcplus 0
        (zip_with (λ loss b, loss * Num.of_nat (batch_example_count b)) losses bs)
  / Num.of_nat n.

(** The validation F1 scores in a log, in order. *)
Definition logged_val_f1 (lines : list LogLine) : list Qc :=
  omap (λ line, match line with
                | LogPhase val _ _ _ _ f1 => Some f1
                | _ => None
                end) lines.

(** The progress lines in a log, as (epoch, examples seen, total). *)
Definition logged_progress (lines : list LogLine) : list (nat * nat * nat) :=
  omap (λ line, match line with
                | LogProgress e seen total _ _ => Some (e, seen, total)
                | _ => None
                end) lines.

(** The schedule a stepped [StepLR] scheduler would produce: the initial rate
    times [gamma] once for every [step_size] completed epochs. *)
Definition decayed_lr (lr0 : Qc) (sched : StepLR) (epoch : nat) : Qc :=
  lr0 * gamma sched ^ Z.to_nat (Z.of_nat epoch / step_size sched).

(** Two command lines that differ at most in [momentum], [weight_decay] and
    [num_layers]. *)
Definition same_but_dead_options (a b : Args.t) : Prop :=
  Args.batch_size a = Args.batch_size b ∧ Args.test a = Args.test b ∧
  Args.epochs a = Args.epochs b ∧ Args.lr a = Args.lr b ∧
  Args.dropout a = Args.dropout b ∧ Args.step a = Args.step b ∧
  Args.gamma a = Args.gamma b ∧ Args.hidden_size a = Args.hidden_size b ∧
  Args.attention a = Args.attention b.

(** ** A small concrete instance

    A network with a single scalar parameter [w] that predicts the
    probability [w] for every class of every example, a loss that is
    constantly [1], and plain gradient descent with gradient [1].  It is used
    to run the loop on concrete data. *)

Module Toy.

Definition batch_examples (x : matrix Z) : nat :=
  match x with
  | [] => 0
  | row :: _ => length row
  end.

Definition predict (ps : list tensor) (x : matrix Z) : option (matrix Qc * matrix Qc) :=
  match ps with
  | [[w]] =>
      let out := replicate (batch_examples x) (replicate no_of_classes w) in
      Some (out, out)
  | _ => None
  end.

Global Instance network : Network nat := {|
  init_parameters := λ _ r, ([("w"%string, [1])], r);
  forward_train := λ _ r ps x, '(out, pred) ← predict ps x; Some (out, pred, S r);
  forward_eval := λ _ ps x, predict ps x;
|}.

Global Instance loss : Loss := {| criterion := λ _ _, Some 1 |}.

Global Instance autograd : Autograd nat := {|
  gradients := λ _ _ ps _ _, map (map (λ _, 1)) ps;
|}.

Global Instance sgd : Optimizer unit := {|
  opt_init := ();
  opt_update := λ lr o vs gs,
    (o, zip_with (zip_with (λ v g, v - lr * g)) vs gs);
|}.

(** Two examples of three and two tokens, every label set. *)
Definition all_set : vector Z := replicate no_of_classes 1%Z.
Definition batch2 : Batch := Torchtext.make_batch [([5; 6; 7]%Z, all_set); ([8; 9]%Z, all_set)].

Definition loader2 : DataLoader :=
  {| dataset_len := 2; batches_of_pass := λ _, [batch2] |}.

Definition dataloaders (phase : Phase) : DataLoader := loader2.

Definition w_loc : loc := 1%positive.
Definition model : NnModule :=
  {| cfg := {| hidden_dim := 128; dropout := 0; attention_layer := false |};
     named_parameters := [("w"%string, w_loc)] |}.

Definition half : Qc := Q2Qc (1 # 2).

(** A matrix of probabilities with an entry exactly at the threshold. *)
Definition probs : matrix Qc := [[Num.threshold; 1]; [half; 0]].

Definition start : State nat unit :=
  {| heap := {[ w_loc := [1] ]}; training := true; rng := 0%nat;
     optimizer := {| opt_params := named_parameters model; opt_lr := half;
                     opt_state := () |};
     disk := ∅; graphs := ∅; log := [] |}.

Definition scheduler : StepLR := {| step_size := 1; gamma := Q2Qc (1 # 10) |}.

Definition model_name : string := "BiLSTMNetwork".

Definition corpus : Corpus :=
  {| train_iter := λ _, loader2; val_iter := λ _, loader2; test_iter := λ _, loader2 |}.

Definition args : Args.t :=
  {| Args.batch_size := 64; Args.test := false; Args.epochs := 2;
     Args.lr := half; Args.weight_decay := Q2Qc (1 # 1000);
     Args.dropout := 0; Args.momentum := half; Args.step := 1;
     Args.gamma := Q2Qc (1 # 10); Args.hidden_size := 128;
     Args.num_layers := 1; Args.attention := false |}.

(** The same command line with other values for the three options that
    are never read. *)
Definition args' : Args.t :=
  {| Args.batch_size := 64; Args.test := false; Args.epochs := 2;
     Args.lr := half; Args.weight_decay := 0;
     Args.dropout := 0; Args.momentum := 1; Args.step := 1;
     Args.gamma := Q2Qc (1 # 10); Args.hidden_size := 128;
     Args.num_layers := 3; Args.attention := false |}.

End Toy.

(** The shape of the two matrices as [test_model] builds them: seven columns, one row per
    example, predictions 0 or 1. *)
Definition well_shaped (n : nat) (yt : matrix Z) (yp : matrix Qc) : Prop :=
  length yt = n ∧
  Forall (λ row, length row = no_of_classes) yt ∧
  Forall (λ row, length row = no_of_classes) yp ∧
  Forall (Forall (λ q, q = 0 ∨ q = 1)) yp.

(** ** Where the checkpoint file comes from *)

(** No checkpoint was written: the files are those of the start and the best
    metrics are still 0. *)
Definition no_checkpoint (d0 d : gmap string checkpoint) (bp br bf : Qc) : Prop :=
  d = d0 ∧ bp = 0 ∧ br = 0 ∧ bf = 0.

(** The checkpoint file and the best metrics come from epoch number [k] of
    the run from [s]: that epoch raised the best F1 to [bf], and the file
    holds the contents the parameters had at its end. *)
Definition checkpoint_of_epoch {Rng O} `{!Network Rng, !Loss, !Autograd Rng, !Optimizer O}
    (model : NnModule) (model_name : string) (dataloaders : Phase → DataLoader)
    (num_epochs : nat) (s : State Rng O) (k : nat)
    (d : gmap string checkpoint) (bp br bf : Qc) : Prop :=
  ∃ s_p l_p s_k l_k c,
    after_epochs model model_name dataloaders num_epochs k s = Some (s_p, l_p) ∧
    after_epochs model model_name dataloaders num_epochs (S k) s = Some (s_k, l_k) ∧
    best_f1 l_p < best_f1 l_k ∧
    bf = best_f1 l_k ∧ bp = best_precision l_k ∧ br = best_recall l_k ∧
    Torch.contents (Torch.get_state_dict model) (heap s_k) = Some c ∧
    d = <[checkpoint_path model_name := c]> (disk s).

(** ** Further concrete data *)

Module Fixtures.

(** A loader over an empty dataset. *)
Definition empty_loader : DataLoader :=
  {| dataset_len := 0; batches_of_pass := λ _, [] |}.

Definition empty_dataloaders (phase : Phase) : DataLoader :=
  match phase with
  | train => empty_loader
  | val => Toy.loader2
  end.

(** The command line of [Toy.args] with [--test]. *)
Definition args_test : Args.t :=
  {| Args.batch_size := 64; Args.test := true; Args.epochs := 2;
     Args.lr := Toy.half; Args.weight_decay := Q2Qc (1 # 1000);
     Args.dropout := 0; Args.momentum := Toy.half; Args.step := 1;
     Args.gamma := Q2Qc (1 # 10); Args.hidden_size := 128;
     Args.num_layers := 1; Args.attention := false |}.

(** A checkpoint file for the toy network. *)
Definition files : gmap string checkpoint :=
  {[ checkpoint_path Toy.model_name := [("w"%string, [Toy.half])] ]}.

(** The command line of [Toy.args] with [--attention], and a checkpoint of
    the attention network on disk. *)
Definition args_attention : Args.t :=
  {| Args.batch_size := 64; Args.test := false; Args.epochs := 2;
     Args.lr := Toy.half; Args.weight_decay := Q2Qc (1 # 1000);
     Args.dropout := 0; Args.momentum := Toy.half; Args.step := 1;
     Args.gamma := Q2Qc (1 # 10); Args.hidden_size := 128;
     Args.num_layers := 1; Args.attention := true |}.

Definition files' : gmap string checkpoint :=
  {[ checkpoint_path (model_name_of args_attention) := [("w"%string, [1])] ]}.

(** A second network object with the parameter names of [Toy.model], and a
    store that holds the parameters of both. *)
Definition w_loc' : loc := 2%positive.
Definition model' : NnModule :=
  {| cfg := cfg Toy.model; named_parameters := [("w"%string, w_loc')] |}.
Definition store2 : store := {[ Toy.w_loc := [Toy.half]; w_loc' := [0] ]}.

(** The start state of the toy run over that store. *)
Definition start2 : State nat unit :=
  {| heap := store2; training := true; rng := 0%nat;
     optimizer := {| opt_params := named_parameters Toy.model; opt_lr := Toy.half;
                     opt_state := () |};
     disk := ∅; graphs := ∅; log := [] |}.

End Fixtures.

(** * Properties *)

(** ** Thresholding *)

Lemma gtb_lt (p t : Qc) : Num.gtb p t = true ↔ t < p.
Proof. unfold Num.gtb. by rewrite bool_decide_eq_true. Qed.

Lemma Qc_one_ne_zero : (1 : Qc) ≠ 0.
Proof. intros E. by apply (f_equal this) in E. Qed.

Lemma decided_select (t p : Qc) : decided t p (select t p).
Proof.
  unfold decided, select. destruct (Num.gtb p t) eqn:E.
  - apply gtb_lt in E. split; split; try done.
  - assert (¬ t < p) as Hn by (rewrite <- gtb_lt; congruence).
    split; split; try done.
Qed.

Lemma where_gt_rule (t : Qc) (pred : matrix Qc) :
  decision_rule t pred (where_gt t pred).
Proof.
  unfold decision_rule, where_gt.
  induction pred as [|row pred IH]; constructor; [|done].
  induction row as [|p row IHr]; constructor; [|done].
  apply decided_select.
Qed.

Lemma select_mono (t1 t2 p : Qc) : t1 ≤ t2 → select t2 p = 1 → select t1 p = 1.
Proof.
  unfold select. intros Hle.
  destruct (Num.gtb p t2) eqn:E2; [|intros E; symmetry in E; by destruct Qc_one_ne_zero].
  intros _. apply gtb_lt in E2.
  assert (Num.gtb p t1 = true) as ->; [|done].
  apply gtb_lt. by eapply Qcle_lt_trans.
Qed.

Lemma positives_mono (t1 t2 : Qc) (row : vector Qc) :
  t1 ≤ t2 → (positives (map (select t2) row) ≤ positives (map (select t1) row))%nat.
Proof.
  intros Hle. unfold positives.
  induction row as [|p row IH]; [done|].
  cbn [map]. rewrite !filter_cons.
  pose proof (select_mono t1 t2 p Hle).
  repeat case_decide; cbn [length]; [apply le_n_S, IH | tauto | apply le_S, IH | apply IH].
Qed.

(** C7.  For a fixed matrix of probabilities, raising the threshold of the
    strict comparison never raises the number of positive predictions. *)
Theorem threshold_monotone (pred : matrix Qc) (t1 t2 : Qc) :
  t1 ≤ t2 →
  (count_positive (where_gt t2 pred) ≤ count_positive (where_gt t1 pred))%nat.
Proof.
  intros Hle. unfold count_positive, where_gt.
  induction pred as [|row pred IH]; [done|].
  cbn [map sum_list sum_list_with].
  apply Nat.add_le_mono; [by apply positives_mono | exact IH].
Qed.

Lemma threshold_monotone_witness :
  Num.threshold ≤ Toy.half ∧
  (count_positive (where_gt Toy.half Toy.probs)
   ≤ count_positive (where_gt Num.threshold Toy.probs))%nat.
Proof.
  assert (Num.threshold ≤ Toy.half) as H by (by vm_compute).
  split; [exact H|].
  exact (threshold_monotone Toy.probs _ _ H).
Defined.

(** ** What a batch changes *)

Section loop_facts.
Context {Rng O : Type}.
Context `{!Network Rng, !Loss, !Autograd Rng, !Optimizer O}.
Implicit Types (s : State Rng O) (model : NnModule) (b : Batch).

(** A forward pass touches the generator only. *)
Lemma model_call_frame model x s outputs pred s1 :
  model_call model x s = Some (outputs, pred, s1) →
  heap s1 = heap s ∧ training s1 = training s ∧ optimizer s1 = optimizer s ∧
  disk s1 = disk s ∧ graphs s1 = graphs s ∧ log s1 = log s.
Proof.
  unfold model_call. intros Hc.
  destruct (Torch.parameter_values model (heap s)) as [ps|]; [|done].
  cbn in Hc. destruct (training s) eqn:Et.
  - destruct (forward_train (cfg model) (rng s) ps x) as [[[o p] r]|]; [|done].
    cbn in Hc. by simplify_eq.
  - destruct (forward_eval (cfg model) ps x) as [[o p]|]; [|done].
    cbn in Hc. by simplify_eq.
Qed.

(** In evaluation mode it touches nothing, and its result is a function of
    the parameter values. *)
Lemma model_call_eval model x s :
  training s = false →
  model_call model x s =
    ps ← Torch.parameter_values model (heap s);
    '(outputs, pred) ← forward_eval (cfg model) ps x;
    Some (outputs, pred, s).
Proof. unfold model_call. by intros ->. Qed.

(** The optimizer step writes parameters and its own state; it leaves the
    learning rate, the files and the log alone. *)
Lemma backward_and_step_frame model r0 x targets s s1 :
  backward_and_step model r0 x targets s = Some s1 →
  opt_lr (optimizer s1) = opt_lr (optimizer s) ∧
  opt_params (optimizer s1) = opt_params (optimizer s) ∧
  training s1 = training s ∧ rng s1 = rng s ∧
  disk s1 = disk s ∧ graphs s1 = graphs s ∧ log s1 = log s.
Proof.
  unfold backward_and_step. intros Hc.
  destruct (Torch.parameter_values model (heap s)) as [ps|]; [|done].
  cbn in Hc.
  destruct (mapM _ (opt_params (optimizer s))) as [vs|]; [|done].
  cbn in Hc.
  destruct (opt_update _ _ _ _) as [o' vs'].
  by simplify_eq.
Qed.

Lemma np_append_rows_Some {A} cols (a b' : matrix A) r :
  np_append_rows cols a b' = Some r → r = a ++ b'.
Proof. unfold np_append_rows, np_append. case_match; naive_solver. Qed.

(** One iteration of the batch loop, step by step. *)
Lemma batch_step_inv model phase epoch dataset_size n_batches batch_idx b s a s' a' :
  batch_step model phase epoch dataset_size n_batches batch_idx b s a = Some (s', a') →
  ∃ targets outputs pred s1 loss s2,
    torch_stack1 (labels b) = Some targets ∧
    model_call model (inputs b) s = Some (outputs, pred, s1) ∧
    criterion outputs (map (map Num.of_Z) targets) = Some loss ∧
    (if decide (phase = train)
     then backward_and_step model (rng s) (inputs b) (map (map Num.of_Z) targets) s1
          = Some s2
     else s2 = s1) ∧
    y_true a' = y_true a ++ targets ∧
    y_pred a' = y_pred a ++ where_gt Num.threshold pred ∧
    running_loss a' = running_loss a + loss * Num.of_nat (size0 (inputs b)) ∧
    (if decide (phase = train ∧ batch_idx `mod` 50 = 0)%nat
     then ∃ percent,
         py_div (Num.of_nat 100 * Num.of_nat (batch_idx + 1)) n_batches = Some percent ∧
         s' = emit (LogProgress (epoch + 1) ((batch_idx + 1) * length (labels b))
                                dataset_size percent loss) s2
     else s' = s2).
Proof.
  unfold batch_step. intros Hc.
  apply bind_Some in Hc as (targets & Ht & Hc).
  apply bind_Some in Hc as ([[outputs pred] s1] & Hm & Hc). cbv beta iota in Hc.
  apply bind_Some in Hc as (loss & Hl & Hc).
  apply bind_Some in Hc as (s2 & Hs2 & Hc).
  apply bind_Some in Hc as (yt & Hyt%np_append_rows_Some & Hc).
  apply bind_Some in Hc as (yp & Hyp%np_append_rows_Some & Hc).
  apply bind_Some in Hc as (s3 & Hs3 & Hc).
  injection Hc as <- <-. cbn [y_true y_pred running_loss].
  exists targets, outputs, pred, s1, loss, s2.
  repeat split; try done.
  - destruct (decide (phase = train)); [done|]. by injection Hs2.
  - destruct (decide (phase = train ∧ batch_idx `mod` 50 = 0)%nat).
    + apply bind_Some in Hs3 as (percent & Hpc & Hs3).
      exists percent. split; [done|]. by injection Hs3.
    + by injection Hs3.
Qed.

(** A batch leaves the learning rate, the parameter list of the optimizer,
    the mode, the files and the figures as they are. *)
Lemma batch_step_frame model phase epoch dataset_size n_batches batch_idx b s a s' a' :
  batch_step model phase epoch dataset_size n_batches batch_idx b s a = Some (s', a') →
  opt_lr (optimizer s') = opt_lr (optimizer s) ∧
  opt_params (optimizer s') = opt_params (optimizer s) ∧
  training s' = training s ∧ disk s' = disk s ∧ graphs s' = graphs s.
Proof.
  intros (targets & outputs & pred & s1 & loss & s2 & _ & Hm & _ & Hs2 & _ & _ & _ & Hs')
    %batch_step_inv.
  apply model_call_frame in Hm as (_ & Ht1 & Ho1 & Hd1 & Hg1 & _).
  assert (opt_lr (optimizer s2) = opt_lr (optimizer s) ∧
          opt_params (optimizer s2) = opt_params (optimizer s) ∧
          training s2 = training s ∧ disk s2 = disk s ∧ graphs s2 = graphs s)
    as (? & ? & ? & ? & ?).
  { destruct (decide (phase = train)).
    - apply backward_and_step_frame in Hs2 as (? & ? & ? & _ & ? & ? & _).
      repeat split; congruence.
    - subst s2. repeat split; congruence. }
  destruct (decide (phase = train ∧ batch_idx `mod` 50 = 0)%nat).
  - destruct Hs' as (percent & _ & ->). by cbn.
  - by subst s'.
Qed.

Lemma batch_loop_frame model phase epoch dataset_size n_batches bs :
  ∀ batch_idx s a s' a',
    batch_loop model phase epoch dataset_size n_batches batch_idx bs s a = Some (s', a') →
    opt_lr (optimizer s') = opt_lr (optimizer s) ∧
    opt_params (optimizer s') = opt_params (optimizer s) ∧
    training s' = training s ∧ disk s' = disk s ∧ graphs s' = graphs s.
Proof.
  induction bs as [|b bs IH]; intros batch_idx s a s' a' Hc; cbn in Hc.
  - by simplify_eq.
  - apply bind_Some in Hc as ([s1 a1] & Hb & Hc). cbv beta iota in Hc.
    apply batch_step_frame in Hb as (? & ? & ? & ? & ?).
    apply IH in Hc as (? & ? & ? & ? & ?).
    repeat split; congruence.
Qed.

End loop_facts.

(** ** What a phase and an epoch change *)

Section train_facts.
Context {Rng O : Type}.
Context `{!Network Rng, !Loss, !Autograd Rng, !Optimizer O}.
Implicit Types (s : State Rng O) (model : NnModule) (l : Locals).

Lemma measure_phase_frame model dataloaders epoch phase s s' m :
  measure_phase model dataloaders epoch phase s = Some (s', m) →
  opt_lr (optimizer s') = opt_lr (optimizer s) ∧
  opt_params (optimizer s') = opt_params (optimizer s) ∧
  disk s' = disk s ∧ graphs s' = graphs s.
Proof.
  unfold measure_phase. intros Hc.
  apply bind_Some in Hc as ([s1 a] & Hb & Hc). cbv beta iota in Hc.
  apply bind_Some in Hc as (loss & _ & Hc).
  apply bind_Some in Hc as (acc & _ & Hc).
  apply bind_Some in Hc as ([[precision recall] f1] & _ & Hc).
  cbv beta iota in Hc. injection Hc as <- _.
  by apply batch_loop_frame in Hb as (? & ? & _ & ? & ?).
Qed.

(** The bookkeeping at the end of a phase (lines 116 to 128). *)
Lemma keep_best_inv model model_name epoch phase m s l s' l' :
  keep_best model model_name epoch phase m s l = Some (s', l') →
  heap s' = heap s ∧ optimizer s' = optimizer s ∧ graphs s' = graphs s ∧
  model_loss l' = model_loss_set phase epoch (epoch_loss m) (model_loss l) ∧
  if decide (phase = val ∧ best_f1 l < epoch_f1 m)
  then best_updated model model_name m s s' l l'
  else best_kept s s' l l'.
Proof.
  unfold keep_best. intros Hc.
  destruct (decide (phase = val ∧ best_f1 l < epoch_f1 m)).
  - apply bind_Some in Hc as (d & Hd & Hc). injection Hc as <- <-.
    unfold Torch.save in Hd. apply bind_Some in Hd as (c & Hcont & Hd).
    injection Hd as <-. cbn in Hcont.
    repeat split; try done. by exists c.
  - injection Hc as <- <-. by repeat split.
Qed.

(** One epoch: the training phase never touches the best-checkpoint
    state; the validation phase decides on its F1 alone. *)
Lemma run_epoch_inv model model_name dataloaders num_epochs epoch s l s' l' :
  run_epoch model model_name dataloaders num_epochs epoch s l = Some (s', l') →
  ∃ st mt sv mv,
    measure_phase model dataloaders epoch train
      (emit LogRule (emit (LogEpoch (epoch + 1) num_epochs) s)) = Some (st, mt) ∧
    measure_phase model dataloaders epoch val
      (emit (LogPhase train (epoch_loss mt) (epoch_acc mt) (epoch_precision mt)
                      (epoch_recall mt) (epoch_f1 mt)) st) = Some (sv, mv) ∧
    opt_lr (optimizer s') = opt_lr (optimizer s) ∧
    opt_params (optimizer s') = opt_params (optimizer s) ∧
    graphs s' = graphs s ∧
    if decide (best_f1 l < epoch_f1 mv)
    then best_updated model model_name mv s s' l l'
    else best_kept s s' l l'.
Proof.
  unfold run_epoch, run_phase. intros Hc.
  apply bind_Some in Hc as ([s1 l1] & Ht & Hc). cbv beta iota in Hc.
  apply bind_Some in Ht as ([st mt] & Hmt & Ht). cbv beta iota in Ht.
  apply bind_Some in Hc as ([sv mv] & Hmv & Hc). cbv beta iota in Hc.
  unfold keep_best in Ht.
  rewrite decide_False in Ht by (by intros [? _]).
  injection Ht as <- <-.
  exists st, mt, sv, mv. split; [done|]. split; [done|].
  apply measure_phase_frame in Hmt as (Hlr1 & Hp1 & Hd1 & Hg1).
  apply measure_phase_frame in Hmv as (Hlr2 & Hp2 & Hd2 & Hg2).
  apply keep_best_inv in Hc as (Hh & Ho & Hg & _ & Hbest).
  cbn in *. rewrite Ho.
  split; [congruence|]. split; [congruence|]. split; [congruence|].
  destruct (decide (best_f1 l < epoch_f1 mv)) as [Hlt|Hnlt].
  - rewrite decide_True in Hbest by done.
    destruct Hbest as (? & ? & ? & ? & ? & c & ? & Hdisk).
    repeat split; try done. exists c. split; [done|]. congruence.
  - rewrite decide_False in Hbest by (by intros [_ ?]).
    destruct Hbest as (? & ? & ? & ? & ? & Hdisk).
    repeat split; try done. congruence.
Qed.

Lemma epoch_loop_app model model_name dataloaders num_epochs es1 es2 :
  ∀ s l,
    epoch_loop model model_name dataloaders num_epochs (es1 ++ es2) s l =
      '(s', l') ← epoch_loop model model_name dataloaders num_epochs es1 s l;
      epoch_loop model model_name dataloaders num_epochs es2 s' l'.
Proof.
  induction es1 as [|e es1 IH]; intros s l; [done|].
  cbn [app epoch_loop].
  destruct (run_epoch model model_name dataloaders num_epochs e s l) as [[s1 l1]|];
    [|done].
  cbn. apply IH.
Qed.

(** The prefix of [S n] epochs is the prefix of [n] epochs followed by
    epoch number [n]. *)
Lemma after_epochs_S model model_name dataloaders num_epochs n s :
  after_epochs model model_name dataloaders num_epochs (S n) s =
    '(s', l') ← after_epochs model model_name dataloaders num_epochs n s;
    run_epoch model model_name dataloaders num_epochs n s' l'.
Proof.
  unfold after_epochs. rewrite seq_S, epoch_loop_app. cbn [Nat.add epoch_loop].
  destruct (epoch_loop _ _ _ _ (seq 0 n) s _) as [[s1 l1]|]; [|done].
  cbn. by destruct (run_epoch _ _ _ _ n s1 l1) as [[??]|].
Qed.

End train_facts.

(** ** Best checkpoint and learning rate across epochs *)

Section across_epochs.
Context {Rng O : Type}.
Context `{!Network Rng, !Loss, !Autograd Rng, !Optimizer O}.
Implicit Types (s : State Rng O) (model : NnModule) (l : Locals).

Lemma after_epochs_lr model model_name dataloaders num_epochs n :
  ∀ s s1 l1,
    after_epochs model model_name dataloaders num_epochs n s = Some (s1, l1) →
    opt_lr (optimizer s1) = opt_lr (optimizer s).
Proof.
  induction n as [|n IH]; intros s s1 l1 Hc.
  - unfold after_epochs in Hc. cbn in Hc. by simplify_eq.
  - rewrite after_epochs_S in Hc.
    apply bind_Some in Hc as ([s0 l0] & H0 & Hc). cbv beta iota in Hc.
    apply IH in H0.
    apply run_epoch_inv in Hc as (? & ? & ? & ? & _ & _ & Hlr & _).
    congruence.
Qed.

(** C4.  Across one epoch the best-checkpoint state (best accuracy,
    precision, recall and F1, and the checkpoint file) is replaced exactly
    when the F1 of the validation phase is strictly above the best F1 so
    far, which starts at 0; otherwise it is kept.  So the best F1, the
    validation F1 of the checkpoint on disk, never decreases, and the file
    changes only when it strictly increases. *)
Theorem best_checkpoint_policy model model_name dataloaders num_epochs n s s1 l1 s2 l2 :
  after_epochs model model_name dataloaders num_epochs n s = Some (s1, l1) →
  after_epochs model model_name dataloaders num_epochs (S n) s = Some (s2, l2) →
  best_f1 (locals_init model num_epochs) = 0 ∧
  (∃ st mt sv mv,
      measure_phase model dataloaders n train
        (emit LogRule (emit (LogEpoch (n + 1) num_epochs) s1)) = Some (st, mt) ∧
      measure_phase model dataloaders n val
        (emit (LogPhase train (epoch_loss mt) (epoch_acc mt) (epoch_precision mt)
                        (epoch_recall mt) (epoch_f1 mt)) st) = Some (sv, mv) ∧
      if decide (best_f1 l1 < epoch_f1 mv)
      then best_updated model model_name mv s1 s2 l1 l2
      else best_kept s1 s2 l1 l2) ∧
  best_f1 l1 ≤ best_f1 l2 ∧
  (disk s2 ≠ disk s1 → best_f1 l1 < best_f1 l2).
Proof.
  intros H1 H2. rewrite after_epochs_S, H1 in H2. cbn in H2.
  apply run_epoch_inv in H2 as (st & mt & sv & mv & Hmt & Hmv & _ & _ & _ & Hbest).
  split; [done|]. split; [by exists st, mt, sv, mv|].
  destruct (decide (best_f1 l1 < epoch_f1 mv)) as [Hlt|Hnlt].
  - destruct Hbest as (_ & _ & _ & -> & _). split; [by apply Qclt_le_weak|done].
  - destruct Hbest as (_ & _ & _ & -> & _ & Hdisk). split; [apply Qcle_refl|done].
Qed.

(** C5, as the code has it.  [train_model] never steps the scheduler: at
    the end of every epoch the learning rate of the optimizer is the one it
    started with, it still is when [train_model] returns, and the run does
    not depend on the scheduler (so not on [step] and [gamma]). *)
Theorem learning_rate_never_decays model model_name dataloaders sched args
    num_epochs n s s1 l1 :
  after_epochs model model_name dataloaders num_epochs n s = Some (s1, l1) →
  opt_lr (optimizer s1) = opt_lr (optimizer s) ∧
  (∀ s' ret,
      train_model model model_name dataloaders sched args num_epochs s = Some (s', ret) →
      opt_lr (optimizer s') = opt_lr (optimizer s)) ∧
  (∀ sched',
      train_model model model_name dataloaders sched' args num_epochs s =
      train_model model model_name dataloaders sched args num_epochs s).
Proof.
  intros Hn. split; [by eapply after_epochs_lr|]. split; [|done].
  intros s' ret Hc. unfold train_model in Hc.
  apply bind_Some in Hc as ([s0 l0] & H0 & Hc). cbv beta iota in Hc.
  apply bind_Some in Hc as (h & _ & Hc). injection Hc as <- _.
  apply after_epochs_lr in H0. by cbn.
Qed.

End across_epochs.

(** ** Evaluation *)

Section test_facts.
Context {Rng O : Type}.
Context `{!Network Rng}.
Implicit Types (s : State Rng O) (model : NnModule).

(** In evaluation mode one step leaves the state alone, and what it adds
    to the two matrices is a function of the parameter values. *)
Lemma test_step_det model b s1 s2 yt yp :
  training s1 = false → training s2 = false →
  Torch.parameter_values model (heap s1) = Torch.parameter_values model (heap s2) →
  match test_step model b s1 yt yp, test_step model b s2 yt yp with
  | Some (s1', y1, p1), Some (s2', y2, p2) => s1' = s1 ∧ s2' = s2 ∧ y1 = y2 ∧ p1 = p2
  | None, None => True
  | _, _ => False
  end.
Proof.
  intros Ht1 Ht2 Hpv. unfold test_step.
  rewrite !model_call_eval, Hpv by done.
  destruct (torch_stack1 (labels b)) as [targets|]; [|done]. cbn.
  destruct (Torch.parameter_values model (heap s2)) as [ps|]; [|done]. cbn.
  destruct (forward_eval (cfg model) ps (inputs b)) as [[outputs pred]|]; [|done].
  cbn.
  destruct (np_append_rows _ yt targets) as [yt'|]; [|done]. cbn.
  by destruct (np_append_rows _ yp _) as [yp'|].
Qed.

Lemma test_loop_det model bs :
  ∀ s1 s2 yt yp,
    training s1 = false → training s2 = false →
    Torch.parameter_values model (heap s1) = Torch.parameter_values model (heap s2) →
    match test_loop model bs s1 yt yp, test_loop model bs s2 yt yp with
    | Some (s1', y1, p1), Some (s2', y2, p2) => s1' = s1 ∧ s2' = s2 ∧ y1 = y2 ∧ p1 = p2
    | None, None => True
    | _, _ => False
    end.
Proof.
  induction bs as [|b bs IH]; intros s1 s2 yt yp Ht1 Ht2 Hpv; [done|].
  cbn [test_loop].
  pose proof (test_step_det model b s1 s2 yt yp Ht1 Ht2 Hpv) as Hstep.
  destruct (test_step model b s1 yt yp) as [[[s1' y1] p1]|],
           (test_step model b s2 yt yp) as [[[s2' y2] p2]|]; try done.
  destruct Hstep as (-> & -> & -> & ->). cbn. by apply IH.
Qed.

(** C8.  On two states in which the network holds the same parameter
    values (the same checkpoint), whatever the generator state and the rest
    of the two states, [test_model] over the same batches fails in both or
    returns the same two matrices and prints the same accuracy, precision,
    recall and F1. *)
Theorem test_model_deterministic model test_loader s1 s2 :
  Torch.parameter_values model (heap s1) = Torch.parameter_values model (heap s2) →
  match test_model model test_loader s1, test_model model test_loader s2 with
  | Some (s1', r1), Some (s2', r2) => r1 = r2 ∧ last (log s1') = last (log s2')
  | None, None => True
  | _, _ => False
  end.
Proof.
  intros Hpv. unfold test_model.
  pose proof (test_loop_det model (batches_of_pass test_loader 0)
                (with_training false s1) (with_training false s2) [] []
                eq_refl eq_refl Hpv) as Hloop.
  destruct (test_loop model _ (with_training false s1) [] []) as [[[s1' y1] p1]|],
           (test_loop model _ (with_training false s2) [] []) as [[[s2' y2] p2]|];
    try done.
  destruct Hloop as (-> & -> & -> & ->). cbn.
  destruct (Sklearn.accuracy_score y2 p2) as [acc|]; [|done]. cbn.
  destruct (Sklearn.precision_recall_fscore y2 p2) as [[[precision recall] f1]|];
    [|done].
  cbn. by rewrite !last_snoc.
Qed.

(** C9.  [test_model] updates no parameter: the tensor store, and with it
    the parameter values of the network, the optimizer, the generator and
    the files are after the call what they were before it. *)
Theorem test_model_no_update model test_loader s s' r :
  test_model model test_loader s = Some (s', r) →
  heap s' = heap s ∧
  Torch.parameter_values model (heap s') = Torch.parameter_values model (heap s) ∧
  optimizer s' = optimizer s ∧ rng s' = rng s ∧ disk s' = disk s.
Proof.
  unfold test_model. intros Hc.
  pose proof (test_loop_det model (batches_of_pass test_loader 0)
                (with_training false s) (with_training false s) [] []
                eq_refl eq_refl eq_refl) as Hloop.
  destruct (test_loop model _ (with_training false s) [] []) as [[[s1 yt] yp]|];
    [|done].
  destruct Hloop as (-> & _). cbn in Hc.
  apply bind_Some in Hc as (acc & _ & Hc).
  apply bind_Some in Hc as ([[precision recall] f1] & _ & Hc).
  cbv beta iota in Hc. injection Hc as <- _. by cbn.
Qed.

End test_facts.

(** ** The decision rule in both loops *)

Section decision.
Context {Rng O : Type}.
Context `{!Network Rng, !Loss, !Autograd Rng, !Optimizer O}.
Implicit Types (s : State Rng O) (model : NnModule).

Lemma test_step_inv model b s yt yp s' yt' yp' :
  test_step model b s yt yp = Some (s', yt', yp') →
  ∃ targets outputs pred,
    torch_stack1 (labels b) = Some targets ∧
    model_call model (inputs b) s = Some (outputs, pred, s') ∧
    yt' = yt ++ targets ∧ yp' = yp ++ where_gt Num.threshold pred.
Proof.
  unfold test_step. intros Hc.
  apply bind_Some in Hc as (targets & Ht & Hc).
  apply bind_Some in Hc as ([[outputs pred] s1] & Hm & Hc). cbv beta iota in Hc.
  apply bind_Some in Hc as (yt1 & Hyt%np_append_rows_Some & Hc).
  apply bind_Some in Hc as (yp1 & Hyp%np_append_rows_Some & Hc).
  injection Hc as <- <- <-. by exists targets, outputs, pred.
Qed.

(** C3.  In a batch of the training and validation loop and in a batch of
    the evaluation routine alike, the rows added to the predictions are
    decided entry by entry from the probabilities the network returned:
    the label is 1 exactly when the probability is strictly above 0.4 and 0
    otherwise; a probability equal to 0.4 gives 0. *)
Theorem threshold_decision model phase epoch dataset_size n_batches batch_idx
    b s a s' a' bt (st : State Rng O) yt yp st' yt' yp' :
  batch_step model phase epoch dataset_size n_batches batch_idx b s a = Some (s', a') →
  test_step model bt st yt yp = Some (st', yt', yp') →
  (∃ outputs pred s1 predicted,
      model_call model (inputs b) s = Some (outputs, pred, s1) ∧
      y_pred a' = y_pred a ++ predicted ∧
      decision_rule Num.threshold pred predicted) ∧
  (∃ outputs pred predicted,
      model_call model (inputs bt) st = Some (outputs, pred, st') ∧
      yp' = yp ++ predicted ∧
      decision_rule Num.threshold pred predicted) ∧
  select Num.threshold Num.threshold = 0.
Proof.
  intros Hb Ht. repeat split.
  - apply batch_step_inv in Hb
      as (targets & outputs & pred & s1 & loss & s2 & _ & Hm & _ & _ & _ & Hyp & _).
    exists outputs, pred, s1, (where_gt Num.threshold pred).
    split; [done|]. split; [done|]. apply where_gt_rule.
  - apply test_step_inv in Ht as (targets & outputs & pred & _ & Hm & _ & Hyp).
    exists outputs, pred, (where_gt Num.threshold pred).
    split; [done|]. split; [done|]. apply where_gt_rule.
Qed.

End decision.

(** ** Options that are parsed and never read *)

Section dead_options.
Context {Rng O : Type}.
Context `{!Network Rng, !Loss, !Autograd Rng, !Optimizer O}.

(** C10.  Two runs of [main] whose command lines differ at most in
    [momentum], [weight_decay] and [num_layers], from the same generator
    state, files and corpus, end in the same state (parameters, checkpoint
    and figure files, log) or fail alike. *)
Theorem dead_options_have_no_effect (corpus : Corpus) (a1 a2 : Args.t) (r : Rng)
    (files : gmap string checkpoint) (figs : gmap string Figure) :
  same_but_dead_options a1 a2 →
  main (O := O) corpus a1 r files figs = main corpus a2 r files figs.
Proof.
  destruct a1, a2. unfold same_but_dead_options. cbn.
  intros (-> & -> & -> & -> & -> & -> & -> & -> & ->).
  reflexivity.
Qed.

End dead_options.

(** ** Reloading the best weights *)

Lemma lookup_name_self (ps : list (string * loc)) name l :
  NoDup ps.*1 → (name, l) ∈ ps → Torch.lookup_name name ps = Some l.
Proof.
  unfold Torch.lookup_name.
  induction ps as [|[n0 l0] ps IH]; intros Hnd Hin; [by apply elem_of_nil in Hin|].
  apply NoDup_cons in Hnd as [Hn0 Hnd]. cbn [list_find].
  apply elem_of_cons in Hin as [Heq|Hin].
  - injection Heq as -> ->. by rewrite decide_True.
  - rewrite decide_False.
    + specialize (IH Hnd Hin).
      destruct (list_find _ ps) as [[i [n1 l1]]|]; [|done]. cbn in *. done.
    + cbn. intros ->. apply Hn0. apply list_elem_of_fmap. by exists (name, l).
Qed.

(** Copying every parameter from a state dict whose entries are the
    parameters themselves changes nothing. *)
Lemma copy_params_alias (ps : list (string * loc)) (sd : state_dict) :
  ∀ h h',
    (∀ name l, (name, l) ∈ ps → Torch.lookup_name name sd = Some l) →
    Torch.copy_params ps sd h = Some h' → h' = h.
Proof.
  induction ps as [|[name l] ps IH]; intros h h' Hsd Hc; cbn in Hc.
  - by simplify_eq.
  - rewrite (Hsd name l) in Hc by apply list_elem_of_here. cbn in Hc.
    destruct (h !! l) as [v|] eqn:Hv; [|done]. cbn in Hc.
    rewrite insert_id in Hc by done.
    apply IH in Hc; [done|]. intros n1 l1 Hin. apply Hsd. by apply list_elem_of_further.
Qed.

Section reload.
Context {Rng O : Type}.
Context `{!Network Rng, !Loss, !Autograd Rng, !Optimizer O}.
Implicit Types (s : State Rng O) (model : NnModule) (l : Locals).

(** [best_model_wts] is at all times the state dict of the live network. *)
Lemma after_epochs_wts model model_name dataloaders num_epochs n :
  ∀ s s1 l1,
    after_epochs model model_name dataloaders num_epochs n s = Some (s1, l1) →
    best_model_wts l1 = Torch.get_state_dict model.
Proof.
  induction n as [|n IH]; intros s s1 l1 Hc.
  - unfold after_epochs in Hc. cbn in Hc. by simplify_eq.
  - rewrite after_epochs_S in Hc.
    apply bind_Some in Hc as ([s0 l0] & H0 & Hc). cbv beta iota in Hc.
    apply IH in H0.
    apply run_epoch_inv in Hc as (? & ? & ? & mv & _ & _ & _ & _ & _ & Hbest).
    destruct (decide (best_f1 l0 < epoch_f1 mv)).
    + by destruct Hbest as (_ & _ & _ & _ & ? & _).
    + destruct Hbest as (_ & _ & _ & _ & ? & _). congruence.
Qed.

(** Whatever the validation scores were, the parameters [train_model]
    returns are those at the end of the last epoch. *)
Lemma train_model_returns_last_epoch model model_name dataloaders sched args
    num_epochs s s' ret :
  NoDup (named_parameters model).*1 →
  train_model model model_name dataloaders sched args num_epochs s = Some (s', ret) →
  ∃ s_last l_last,
    after_epochs model model_name dataloaders num_epochs num_epochs s
      = Some (s_last, l_last) ∧
    heap s' = heap s_last.
Proof.
  intros Hnd Hc. unfold train_model in Hc.
  apply bind_Some in Hc as ([s1 l1] & H1 & Hc). cbv beta iota in Hc.
  apply bind_Some in Hc as (h & Hload & Hc). injection Hc as <- _.
  exists s1, l1. split; [done|].
  rewrite (after_epochs_wts _ _ _ _ _ _ _ _ H1) in Hload.
  unfold Torch.load_state_dict, Torch.get_state_dict in Hload.
  apply copy_params_alias in Hload; [by subst h|].
  intros name l Hin. by apply lookup_name_self.
Qed.

End reload.

(** ** The epoch loss and the progress line *)

Lemma of_nat_nonneg (n : nat) : 0 ≤ Num.of_nat n.
Proof.
  unfold Num.of_nat, Num.of_Z, Qcle. cbn [this Q2Qc]. rewrite !Qred_correct.
  unfold Qle. cbn. lia.
Qed.

Lemma of_nat_pos (n : nat) : (0 < n)%nat → 0 < Num.of_nat n.
Proof.
  intros Hn. unfold Num.of_nat, Num.of_Z, Qclt. cbn [this Q2Qc]. rewrite !Qred_correct.
  unfold Qlt. cbn. lia.
Qed.

(** The shape of a batch built by the iterator: the first dimension of the
    text tensor is the padded sequence length, the number of examples is the
    length of the target tensors. *)
Lemma text_tensor_size0 (examples : list (list Z)) :
  size0 (Torchtext.text_tensor examples) = (Torchtext.max_length examples + 2)%nat.
Proof. unfold size0, Torchtext.text_tensor. by rewrite length_map, length_seq. Qed.

Lemma make_batch_example_count (examples : list (list Z * vector Z)) :
  batch_example_count (Torchtext.make_batch examples) = length examples.
Proof. unfold batch_example_count. cbn. by rewrite length_map. Qed.

Lemma np_append_rows_width {A} cols (a b : matrix A) r :
  np_append_rows cols a b = Some r → Forall (λ row, length row = cols) b.
Proof.
  unfold np_append_rows. destruct (forallb _ b) eqn:E; [|done]. intros _.
  apply Forall_forall. intros row Hin.
  rewrite forallb_forall in E. apply Nat.eqb_eq, E. by apply list_elem_of_In.
Qed.

Lemma torch_stack1_width {A} `{Inhabited A} (ts : list (vector A)) m :
  torch_stack1 ts = Some m → Forall (λ row, length row = length ts) m.
Proof.
  unfold torch_stack1. destruct ts as [|t ts]; [done|].
  case_match; [|done]. intros [= <-].
  apply Forall_forall. intros row (i & -> & _)%list_elem_of_fmap.
  cbn [length]. by rewrite length_map.
Qed.

Lemma torch_stack1_rows {A} `{Inhabited A} (ts : list (vector A)) m :
  torch_stack1 ts = Some m →
  length m = match ts with [] => 0%nat | t :: _ => length t end.
Proof.
  unfold torch_stack1. destruct ts as [|t ts]; [done|].
  case_match; [|done]. intros [= <-].
  by rewrite length_map, length_seq.
Qed.

Section loss_and_progress.
Context {Rng O : Type}.
Context `{!Network Rng, !Loss, !Autograd Rng, !Optimizer O}.
Implicit Types (s : State Rng O) (model : NnModule) (b : Batch).

(** A batch that went through the loop adds as many rows as it has examples,
    and has one target tensor per frame class if it has an example at all. *)
Lemma batch_step_rows model phase epoch dataset_size n_batches batch_idx b s a s' a' :
  batch_step model phase epoch dataset_size n_batches batch_idx b s a = Some (s', a') →
  length (y_true a') = (length (y_true a) + batch_example_count b)%nat ∧
  ((0 < batch_example_count b)%nat → length (labels b) = no_of_classes).
Proof.
  intros Hc. pose proof Hc as Hinv.
  apply batch_step_inv in Hinv
    as (targets & outputs & pred & s1 & loss & s2 & Ht & _ & _ & _ & Hyt & _).
  unfold batch_step in Hc. rewrite Ht in Hc. cbn [mbind option_bind] in Hc.
  apply bind_Some in Hc as ([[? ?] ?] & _ & Hc). cbv beta iota in Hc.
  apply bind_Some in Hc as (? & _ & Hc).
  apply bind_Some in Hc as (? & _ & Hc).
  apply bind_Some in Hc as (yt & Hw%np_append_rows_width & _).
  pose proof (torch_stack1_rows _ _ Ht) as Hrows.
  pose proof (torch_stack1_width _ _ Ht) as Hwidth.
  unfold batch_example_count. split.
  - by rewrite Hyt, length_app, Hrows.
  - intros Hpos. rewrite <- Hrows in Hpos.
    destruct targets as [|row targets]; [cbn in Hpos; lia|].
    apply Forall_cons in Hw as [Hw _]. apply Forall_cons in Hwidth as [Hwidth _].
    congruence.
Qed.

(** The loss accumulated over the batches is never negative when no batch
    loss is. *)
Lemma batch_loop_loss_nonneg model phase epoch dataset_size n_batches bs :
  (∀ outputs targets x, criterion outputs targets = Some x → 0 ≤ x) →
  ∀ batch_idx s a s' a',
    batch_loop model phase epoch dataset_size n_batches batch_idx bs s a = Some (s', a') →
    0 ≤ running_loss a → 0 ≤ running_loss a'.
Proof.
  intros Hcrit. induction bs as [|b bs IH]; intros batch_idx s a s' a' Hc Ha; cbn in Hc.
  - by simplify_eq.
  - apply bind_Some in Hc as ([s1 a1] & Hb & Hc). cbv beta iota in Hc.
    apply (IH _ _ _ _ _ Hc).
    apply batch_step_inv in Hb
      as (targets & outputs & pred & ? & loss & ? & _ & _ & Hl & _ & _ & _ & -> & _).
    apply Qcplus_nonneg_nonneg; [done|].
    apply Qcmult_nonneg_nonneg; [by eapply Hcrit | apply of_nat_nonneg].
Qed.

(** The reported epoch loss is the accumulated loss over the size of the
    dataset, which is not empty, and is not negative when no batch loss is. *)
Lemma measure_phase_loss model dataloaders epoch phase s s' m :
  measure_phase model dataloaders epoch phase s = Some (s', m) →
  ∃ a,
    batch_loop model phase epoch (dataset_len (dataloaders phase))
               (loader_len (dataloaders phase) epoch) 0
               (batches_of_pass (dataloaders phase) epoch)
               (with_training (bool_decide (phase = train)) s) running_init
      = Some (s', a) ∧
    (0 < dataset_len (dataloaders phase))%nat ∧
    epoch_loss m = running_loss a / Num.of_nat (dataset_len (dataloaders phase)) ∧
    ((∀ outputs targets x, criterion outputs targets = Some x → 0 ≤ x) →
     0 ≤ epoch_loss m).
Proof.
  unfold measure_phase. intros Hc.
  apply bind_Some in Hc as ([s1 a] & Hb & Hc). cbv beta iota in Hc.
  apply bind_Some in Hc as (loss & Hdiv & Hc).
  apply bind_Some in Hc as (acc & _ & Hc).
  apply bind_Some in Hc as ([[precision recall] f1] & _ & Hc).
  cbv beta iota in Hc. injection Hc as <- <-. cbn [epoch_loss].
  exists a. split; [done|].
  unfold py_div in Hdiv.
  destruct (dataset_len (dataloaders phase)) as [|k] eqn:Ek; [done|].
  injection Hdiv as <-. split; [lia|]. split; [done|].
  intros Hcrit. apply Qcmult_nonneg_nonneg.
  - eapply batch_loop_loss_nonneg; [exact Hcrit | exact Hb | done].
  - apply Qclt_le_weak, Qcinv_pos, of_nat_pos. lia.
Qed.

End loss_and_progress.

(** ** The loop on concrete data *)

(** Equalities between closed terms over [Qc] are settled by the decision
    procedure (the canonicity proofs inside the numbers do not reduce to a
    common form). *)
Ltac by_decision := apply (bool_decide_unpack _); vm_compute; exact I.

(** C1.  Two epochs on the toy instance.  The first epoch reaches validation
    F1 1 with the parameter at 1/2, the second one reaches 0 with the
    parameter at 0.  The checkpoint file holds 1/2, but the network returned
    by [train_model] holds 0: [best_model_wts] shares its tensors with the
    network, so reloading it changes nothing. *)
Theorem returned_weights_are_last_epoch :
  ∃ s1 l1 s' ret,
    after_epochs Toy.model Toy.model_name Toy.dataloaders 2 1 Toy.start = Some (s1, l1) ∧
    train_model Toy.model Toy.model_name Toy.dataloaders Toy.scheduler Toy.args 2
                Toy.start = Some (s', ret) ∧
    logged_val_f1 (log s') = [1; 0] ∧
    ret.2 = 1 ∧
    Torch.parameter_values Toy.model (heap s1) = Some [[Toy.half]] ∧
    disk s' !! checkpoint_path Toy.model_name = Some [("w"%string, [Toy.half])] ∧
    Torch.parameter_values Toy.model (heap s') = Some [[0]] ∧
    Torch.parameter_values Toy.model (heap s') ≠ Torch.parameter_values Toy.model (heap s1).
Proof.
  eexists _, _, _, _.
  split; [vm_compute; reflexivity|].
  split; [vm_compute; reflexivity|].
  split; [by_decision|].
  split; [by_decision|].
  split; [by_decision|].
  split; [by_decision|].
  split; [by_decision|].
  intros E. by vm_compute in E.
Qed.

(** C2.  One validation phase on the toy instance: a single batch of two
    examples whose text tensor has five rows (three tokens, [<bos>], [<eos>]),
    batch loss 1, dataset of size two.  The loop weights the loss by the
    first dimension of the text tensor, the padded sequence length, and
    reports 5/2; weighted by the example count the epoch loss is 1. *)
Theorem epoch_loss_weighted_by_sequence_length :
  ∃ s m,
    measure_phase Toy.model Toy.dataloaders 0 val Toy.start = Some (s, m) ∧
    batches_of_pass (Toy.dataloaders val) 0 = [Toy.batch2] ∧
    dataset_len (Toy.dataloaders val) = 2%nat ∧
    batch_example_count Toy.batch2 = 2%nat ∧
    size0 (inputs Toy.batch2) = 5%nat ∧
    epoch_loss m = Q2Qc (5 # 2) ∧
    example_weighted_loss [1] [Toy.batch2] 2 = 1 ∧
    epoch_loss m ≠ example_weighted_loss [1] [Toy.batch2] 2.
Proof.
  eexists _, _.
  split; [vm_compute; reflexivity|].
  split; [reflexivity|].
  split; [reflexivity|].
  split; [reflexivity|].
  split; [reflexivity|].
  split; [by_decision|].
  split; [by_decision|].
  intros E. by vm_compute in E.
Qed.

(** C6.  One training phase on the toy instance, a single batch of two
    examples out of a dataset of two: the progress line of the first batch
    reports 7 examples seen, the number of label fields, not 2. *)
Theorem progress_counts_label_fields :
  ∃ s m,
    measure_phase Toy.model Toy.dataloaders 0 train Toy.start = Some (s, m) ∧
    batches_of_pass (Toy.dataloaders train) 0 = [Toy.batch2] ∧
    batch_example_count Toy.batch2 = 2%nat ∧
    length (labels Toy.batch2) = no_of_classes ∧
    logged_progress (log s) = [(1, 7, 2)%nat].
Proof.
  eexists _, _.
  split; [vm_compute; reflexivity|].
  by repeat split.
Qed.

(** C5, as stated, fails.  Two epochs with [step_size = 1] and
    [gamma = 1/10]: a rate decayed once per epoch would be 1/20 after one
    epoch and 1/200 after two; the optimizer still has 1/2 when [train_model]
    returns. *)
Lemma learning_rate_decay_counterexample :
  ∃ s' ret,
    train_model Toy.model Toy.model_name Toy.dataloaders Toy.scheduler Toy.args 2
                Toy.start = Some (s', ret) ∧
    opt_lr (optimizer Toy.start) = Toy.half ∧
    decayed_lr Toy.half Toy.scheduler 1 = Q2Qc (1 # 20) ∧
    decayed_lr Toy.half Toy.scheduler 2 = Q2Qc (1 # 200) ∧
    opt_lr (optimizer s') = Toy.half ∧
    opt_lr (optimizer s') ≠ decayed_lr (opt_lr (optimizer Toy.start)) Toy.scheduler 1 ∧
    opt_lr (optimizer s') ≠ decayed_lr (opt_lr (optimizer Toy.start)) Toy.scheduler 2.
Proof.
  eexists _, _.
  split; [vm_compute; reflexivity|].
  split; [reflexivity|].
  split; [by_decision|].
  split; [by_decision|].
  split; [by_decision|].
  split; intros E; by vm_compute in E.
Qed.

(** ** The general statements at the toy instance *)

Lemma threshold_decision_witness :
  ∃ s' a' st' yt' yp',
    batch_step Toy.model train 0 2 1 0 Toy.batch2 Toy.start running_init = Some (s', a') ∧
    test_step Toy.model Toy.batch2 (with_training false Toy.start) [] []
      = Some (st', yt', yp') ∧
    ∃ outputs pred predicted,
      model_call Toy.model (inputs Toy.batch2) (with_training false Toy.start)
        = Some (outputs, pred, st') ∧
      yp' = [] ++ predicted ∧
      decision_rule Num.threshold pred predicted.
Proof.
  destruct (batch_step Toy.model train 0 2 1 0 Toy.batch2 Toy.start running_init)
    as [[s' a']|] eqn:Eb; [|by vm_compute in Eb].
  destruct (test_step Toy.model Toy.batch2 (with_training false Toy.start) [] [])
    as [[[st' yt'] yp']|] eqn:Et; [|by vm_compute in Et].
  exists s', a', st', yt', yp'. split; [done|]. split; [done|].
  exact (proj1 (proj2 (threshold_decision _ _ _ _ _ _ _ _ _ _ _ _ _ _ _ _ _ _ Eb Et))).
Defined.

Lemma best_checkpoint_policy_witness :
  ∃ s1 l1 s2 l2,
    after_epochs Toy.model Toy.model_name Toy.dataloaders 2 0 Toy.start = Some (s1, l1) ∧
    after_epochs Toy.model Toy.model_name Toy.dataloaders 2 1 Toy.start = Some (s2, l2) ∧
    best_f1 l1 ≤ best_f1 l2 ∧ (disk s2 ≠ disk s1 → best_f1 l1 < best_f1 l2).
Proof.
  destruct (after_epochs Toy.model Toy.model_name Toy.dataloaders 2 0 Toy.start)
    as [[s1 l1]|] eqn:E1; [|by vm_compute in E1].
  destruct (after_epochs Toy.model Toy.model_name Toy.dataloaders 2 1 Toy.start)
    as [[s2 l2]|] eqn:E2; [|by vm_compute in E2].
  exists s1, l1, s2, l2. split; [done|]. split; [done|].
  exact (proj2 (proj2 (best_checkpoint_policy _ _ _ _ _ _ _ _ _ _ E1 E2))).
Defined.

Lemma learning_rate_never_decays_witness :
  ∃ s1 l1,
    after_epochs Toy.model Toy.model_name Toy.dataloaders 2 2 Toy.start = Some (s1, l1) ∧
    opt_lr (optimizer s1) = opt_lr (optimizer Toy.start).
Proof.
  destruct (after_epochs Toy.model Toy.model_name Toy.dataloaders 2 2 Toy.start)
    as [[s1 l1]|] eqn:E1; [|by vm_compute in E1].
  exists s1, l1. split; [done|].
  exact (proj1 (learning_rate_never_decays _ _ _ Toy.scheduler Toy.args _ _ _ _ _ E1)).
Defined.

Lemma test_model_deterministic_witness :
  Torch.parameter_values Toy.model (heap Toy.start)
    = Torch.parameter_values Toy.model (heap (with_rng 7%nat Toy.start)) ∧
  match test_model Toy.model Toy.loader2 Toy.start,
        test_model Toy.model Toy.loader2 (with_rng 7%nat Toy.start) with
  | Some (s1', r1), Some (s2', r2) => r1 = r2 ∧ last (log s1') = last (log s2')
  | None, None => True
  | _, _ => False
  end.
Proof.
  split; [reflexivity|].
  exact (test_model_deterministic Toy.model Toy.loader2 Toy.start
           (with_rng 7%nat Toy.start) eq_refl).
Defined.

Lemma test_model_no_update_witness :
  ∃ s' r,
    test_model Toy.model Toy.loader2 Toy.start = Some (s', r) ∧
    heap s' = heap Toy.start.
Proof.
  destruct (test_model Toy.model Toy.loader2 Toy.start) as [[s' r]|] eqn:E;
    [|by vm_compute in E].
  exists s', r. split; [done|].
  exact (proj1 (test_model_no_update _ _ _ _ _ E)).
Defined.

Lemma dead_options_have_no_effect_witness :
  same_but_dead_options Toy.args Toy.args' ∧
  main (O := unit) Toy.corpus Toy.args 0%nat ∅ ∅ = main Toy.corpus Toy.args' 0%nat ∅ ∅.
Proof.
  assert (same_but_dead_options Toy.args Toy.args') as H by (by repeat split).
  split; [exact H|].
  exact (dead_options_have_no_effect Toy.corpus Toy.args Toy.args' 0%nat ∅ ∅ H).
Defined.

(** * Further properties of the loop *)

(** ** The validation phase *)

Section validation_phase.
Context {Rng O : Type}.
Context `{!Network Rng, !Loss, !Autograd Rng, !Optimizer O}.
Implicit Types (s : State Rng O) (model : NnModule) (b : Batch).

Lemma batch_step_val model epoch dataset_size n_batches batch_idx b s a s' a' :
  training s = false →
  batch_step model val epoch dataset_size n_batches batch_idx b s a = Some (s', a') →
  s' = s.
Proof.
  intros Ht (targets & outputs & pred & s1 & loss & s2 & _ & Hm & _ & Hs2 & _ & _ & _ & Hs')
    %batch_step_inv.
  rewrite model_call_eval in Hm by done.
  apply bind_Some in Hm as (ps & _ & Hm).
  apply bind_Some in Hm as ([o p] & _ & Hm). cbv beta iota in Hm.
  injection Hm as _ _ <-.
  rewrite decide_False in Hs2 by done.
  rewrite decide_False in Hs' by (by intros [? _]).
  congruence.
Qed.

Lemma batch_loop_val model epoch dataset_size n_batches bs :
  ∀ batch_idx s a s' a',
    training s = false →
    batch_loop model val epoch dataset_size n_batches batch_idx bs s a = Some (s', a') →
    s' = s.
Proof.
  induction bs as [|b bs IH]; intros batch_idx s a s' a' Ht Hc; cbn in Hc.
  - by simplify_eq.
  - apply bind_Some in Hc as ([s1 a1] & Hb & Hc). cbv beta iota in Hc.
    apply batch_step_val in Hb; [|done]. subst s1. by eapply IH.
Qed.

(** X1.  A validation phase changes nothing but the mode of the network:
    parameters, optimizer, generator, files, figures and log are after the
    batches of the phase what they were before. *)
Theorem validation_phase_changes_nothing model dataloaders epoch s s' m :
  measure_phase model dataloaders epoch val s = Some (s', m) →
  s' = with_training false s.
Proof.
  unfold measure_phase. intros Hc.
  apply bind_Some in Hc as ([s1 a] & Hb & Hc). cbv beta iota in Hc.
  apply bind_Some in Hc as (loss & _ & Hc).
  apply bind_Some in Hc as (acc & _ & Hc).
  apply bind_Some in Hc as ([[precision recall] f1] & _ & Hc).
  cbv beta iota in Hc. injection Hc as <- _.
  by apply batch_loop_val in Hb.
Qed.

End validation_phase.

Lemma validation_phase_changes_nothing_witness :
  ∃ s' m,
    measure_phase Toy.model Toy.dataloaders 0 val Toy.start = Some (s', m) ∧
    s' = with_training false Toy.start.
Proof.
  destruct (measure_phase Toy.model Toy.dataloaders 0 val Toy.start)
    as [[s' m]|] eqn:E; [|by vm_compute in E].
  exists s', m. split; [done|].
  exact (validation_phase_changes_nothing _ _ _ _ _ _ E).
Defined.

(** ** The checkpoint file *)

Section checkpoint_file.
Context {Rng O : Type}.
Context `{!Network Rng, !Loss, !Autograd Rng, !Optimizer O}.
Implicit Types (s : State Rng O) (model : NnModule) (l : Locals).

(** After any number of epochs: no checkpoint yet, or the checkpoint of an
    earlier epoch that raised the best F1; the figures are never touched. *)
Lemma after_epochs_checkpoint model model_name dataloaders num_epochs n :
  ∀ s s_n l_n,
    after_epochs model model_name dataloaders num_epochs n s = Some (s_n, l_n) →
    graphs s_n = graphs s ∧
    (no_checkpoint (disk s) (disk s_n) (best_precision l_n) (best_recall l_n) (best_f1 l_n)
     ∨ ∃ k, (k < n)%nat ∧
         checkpoint_of_epoch model model_name dataloaders num_epochs s k
           (disk s_n) (best_precision l_n) (best_recall l_n) (best_f1 l_n)).
Proof.
  induction n as [|n IH]; intros s s2 l2 Hc.
  - unfold after_epochs in Hc. cbn in Hc. injection Hc as <- <-.
    split; [done|]. by left.
  - pose proof Hc as HSn. rewrite after_epochs_S in Hc.
    apply bind_Some in Hc as ([s1 l1] & Hn & Hc). cbv beta iota in Hc.
    destruct (IH _ _ _ Hn) as [Hg IHd].
    apply run_epoch_inv in Hc as (st & mt & sv & mv & _ & _ & _ & _ & Hg2 & Hbest).
    split; [congruence|].
    destruct (decide (best_f1 l1 < epoch_f1 mv)) as [Hlt|Hnlt].
    + destruct Hbest as (_ & Hp & Hr & Hf & _ & c & Hcont & Hdisk).
      right. exists n. split; [lia|].
      exists s1, l1, s2, l2, c. repeat split; try done; [congruence|].
      rewrite Hdisk.
      destruct IHd as [(-> & _)|(k & _ & (? & ? & ? & ? & c0 & _ & _ & _ & _ & _ & _ & _ & ->))];
        [done|].
      by rewrite insert_insert_eq.
    + destruct Hbest as (_ & Hp & Hr & Hf & _ & Hdisk).
      rewrite Hp, Hr, Hf, Hdisk.
      destruct IHd as [?|(k & Hk & ?)]; [by left|].
      right. exists k. split; [lia|done].
Qed.

(** X2.  What [train_model] returns as best precision, recall and F1 and
    what it leaves in the checkpoint file belong together: either no epoch
    had a validation F1 above 0, then the three are 0 and no file was
    written; or they are the metrics of one epoch that raised the best F1,
    and the file holds the contents the parameters had at the end of that
    epoch. *)
Theorem checkpoint_holds_best_epoch model model_name dataloaders sched args
    num_epochs s s' ret :
  train_model model model_name dataloaders sched args num_epochs s = Some (s', ret) →
  no_checkpoint (disk s) (disk s') ret.1.1.2 ret.1.2 ret.2
  ∨ ∃ k, (k < num_epochs)%nat ∧
      checkpoint_of_epoch model model_name dataloaders num_epochs s k
        (disk s') ret.1.1.2 ret.1.2 ret.2.
Proof.
  unfold train_model. intros Hc.
  apply bind_Some in Hc as ([s1 l1] & Hn & Hc). cbv beta iota in Hc.
  apply bind_Some in Hc as (h & _ & Hc). injection Hc as <- <-. cbn.
  by apply after_epochs_checkpoint in Hn as [_ ?].
Qed.

(** X3.  [train_model] writes one file only: every other file and every
    figure is after the run what it was before. *)
Theorem train_model_writes_one_file model model_name dataloaders sched args
    num_epochs s s' ret path :
  train_model model model_name dataloaders sched args num_epochs s = Some (s', ret) →
  path ≠ checkpoint_path model_name →
  disk s' !! path = disk s !! path ∧ graphs s' = graphs s.
Proof.
  unfold train_model. intros Hc Hpath.
  apply bind_Some in Hc as ([s1 l1] & Hn & Hc). cbv beta iota in Hc.
  apply bind_Some in Hc as (h & _ & Hc). injection Hc as <- _. cbn.
  apply after_epochs_checkpoint in Hn as [Hg Hd]. split; [|done].
  destruct Hd as [(-> & _)|(k & _ & (? & ? & ? & ? & c & _ & _ & _ & _ & _ & _ & _ & ->))];
    [done|].
  by rewrite lookup_insert_ne.
Qed.

End checkpoint_file.

Lemma checkpoint_holds_best_epoch_witness :
  ∃ s' ret,
    train_model Toy.model Toy.model_name Toy.dataloaders Toy.scheduler Toy.args 2
                Toy.start = Some (s', ret) ∧
    (no_checkpoint (disk Toy.start) (disk s') ret.1.1.2 ret.1.2 ret.2
     ∨ ∃ k, (k < 2)%nat ∧
         checkpoint_of_epoch Toy.model Toy.model_name Toy.dataloaders 2 Toy.start k
           (disk s') ret.1.1.2 ret.1.2 ret.2).
Proof.
  destruct (train_model Toy.model Toy.model_name Toy.dataloaders Toy.scheduler
              Toy.args 2 Toy.start) as [[s' ret]|] eqn:E; [|by vm_compute in E].
  exists s', ret. split; [done|].
  exact (checkpoint_holds_best_epoch _ _ _ _ _ _ _ _ _ E).
Defined.

Lemma train_model_writes_one_file_witness :
  ∃ s' ret,
    train_model Toy.model Toy.model_name Toy.dataloaders Toy.scheduler Toy.args 2
                Toy.start = Some (s', ret) ∧
    "./models/other.pt"%string ≠ checkpoint_path Toy.model_name ∧
    disk s' !! "./models/other.pt"%string = disk Toy.start !! "./models/other.pt"%string ∧
    graphs s' = graphs Toy.start.
Proof.
  destruct (train_model Toy.model Toy.model_name Toy.dataloaders Toy.scheduler
              Toy.args 2 Toy.start) as [[s' ret]|] eqn:E; [|by vm_compute in E].
  exists s', ret. split; [done|].
  assert ("./models/other.pt"%string ≠ checkpoint_path Toy.model_name) as Hne
    by (by vm_compute).
  split; [exact Hne|].
  exact (train_model_writes_one_file _ _ _ _ _ _ _ _ _ _ E Hne).
Defined.

(** ** Edge cases of [train_model] *)

Lemma copy_params_own (ps : list (string * loc)) (sd : state_dict) (h : store) :
  (∀ name l, (name, l) ∈ ps → Torch.lookup_name name sd = Some l ∧ is_Some (h !! l)) →
  Torch.copy_params ps sd h = Some h.
Proof.
  induction ps as [|[name l] ps IH]; intros Hsd; [done|]. cbn.
  destruct (Hsd name l) as [-> [v Hv]]; [apply list_elem_of_here|]. cbn.
  rewrite Hv. cbn. rewrite insert_id by done.
  apply IH. intros n1 l1 Hin. apply Hsd. by apply list_elem_of_further.
Qed.

Section edge_cases.
Context {Rng O : Type}.
Context `{!Network Rng, !Loss, !Autograd Rng, !Optimizer O}.
Implicit Types (s : State Rng O) (model : NnModule) (l : Locals).

Lemma measure_phase_empty model dataloaders epoch phase s :
  dataset_len (dataloaders phase) = 0%nat →
  measure_phase model dataloaders epoch phase s = None.
Proof.
  intros He. unfold measure_phase.
  destruct (batch_loop _ _ _ _ _ _ _ _ _) as [[s1 a]|]; [|done].
  cbn. by rewrite He.
Qed.

Lemma run_epoch_empty model model_name dataloaders num_epochs epoch s l :
  (dataset_len (dataloaders train) = 0 ∨ dataset_len (dataloaders val) = 0)%nat →
  run_epoch model model_name dataloaders num_epochs epoch s l = None.
Proof.
  intros He. unfold run_epoch, run_phase.
  destruct He as [He|He].
  - by rewrite measure_phase_empty.
  - destruct (measure_phase model dataloaders epoch train _) as [[s1 m1]|]; [|done].
    cbn. destruct (keep_best _ _ _ train _ _ _) as [[s2 l2]|]; [|done].
    cbn. by rewrite measure_phase_empty.
Qed.

(** X4.  With an empty training or validation dataset and at least one
    epoch to run, [train_model] does not return: the division of the
    accumulated loss by the dataset size raises in the first epoch, if
    nothing raised before. *)
Theorem train_model_empty_dataset model model_name dataloaders sched args num_epochs s :
  (dataset_len (dataloaders train) = 0 ∨ dataset_len (dataloaders val) = 0)%nat →
  (0 < num_epochs)%nat →
  train_model model model_name dataloaders sched args num_epochs s = None.
Proof.
  intros He Hn. unfold train_model, after_epochs.
  destruct num_epochs as [|n]; [lia|].
  cbn [seq epoch_loop]. by rewrite run_epoch_empty.
Qed.

(** X5.  With no epoch to run, [train_model] on a network whose parameters
    exist returns at once: the best metrics are 0, the loss history is
    empty, nothing is written and no parameter changes; only the closing
    lines are logged. *)
Theorem train_model_zero_epochs model model_name dataloaders sched args s :
  NoDup (named_parameters model).*1 →
  is_Some (Torch.parameter_values model (heap s)) →
  train_model model model_name dataloaders sched args 0 s =
    Some (emit (LogBestF1 0) (emit (LogBestRecall 0) (emit (LogBestPrecision 0)
            (emit (LogBestAcc 0) (emit LogElapsed s)))),
          (model, {| loss_train := []; loss_val := [] |}, 0, 0, 0)).
Proof.
  intros Hnd [vs Hvs]. unfold train_model, after_epochs. cbn.
  unfold Torch.load_state_dict, Torch.get_state_dict.
  rewrite copy_params_own; [done|].
  intros name l Hin. split; [by apply lookup_name_self|].
  unfold Torch.parameter_values in Hvs. apply mapM_Some in Hvs.
  apply list_elem_of_lookup in Hin as [i Hi].
  destruct (Forall2_lookup_l _ _ _ _ _ Hvs Hi) as (v & _ & Hv). by exists v.
Qed.

(** X6.  The reload at the end of [train_model] never changes a parameter:
    whatever the validation scores were, the tensor store, and so the
    parameter values of the returned network, are those at the end of the
    last epoch; the network returned is the object passed in. *)
Theorem final_reload_changes_nothing model model_name dataloaders sched args
    num_epochs s s' ret :
  NoDup (named_parameters model).*1 →
  train_model model model_name dataloaders sched args num_epochs s = Some (s', ret) →
  ∃ s_last l_last,
    after_epochs model model_name dataloaders num_epochs num_epochs s
      = Some (s_last, l_last) ∧
    heap s' = heap s_last ∧
    Torch.parameter_values ret.1.1.1.1 (heap s')
      = Torch.parameter_values model (heap s_last).
Proof.
  intros Hnd Hc.
  destruct (train_model_returns_last_epoch _ _ _ _ _ _ _ _ _ Hnd Hc)
    as (s_last & l_last & Hlast & Hheap).
  exists s_last, l_last. split; [done|]. split; [done|].
  unfold train_model in Hc.
  apply bind_Some in Hc as ([s1 l1] & _ & Hc). cbv beta iota in Hc.
  apply bind_Some in Hc as (h & _ & Hc). injection Hc as _ <-. cbn.
  by rewrite Hheap.
Qed.

End edge_cases.

Lemma train_model_empty_dataset_witness :
  (dataset_len (Fixtures.empty_dataloaders train) = 0
   ∨ dataset_len (Fixtures.empty_dataloaders val) = 0)%nat ∧
  (0 < 2)%nat ∧
  train_model Toy.model Toy.model_name Fixtures.empty_dataloaders Toy.scheduler
              Toy.args 2 Toy.start = None.
Proof.
  assert (dataset_len (Fixtures.empty_dataloaders train) = 0
          ∨ dataset_len (Fixtures.empty_dataloaders val) = 0)%nat as He
    by (left; reflexivity).
  assert (0 < 2)%nat as Hn by lia.
  split; [exact He|]. split; [exact Hn|].
  exact (train_model_empty_dataset Toy.model Toy.model_name Fixtures.empty_dataloaders
           Toy.scheduler Toy.args 2 Toy.start He Hn).
Defined.

Lemma toy_names_nodup : NoDup (named_parameters Toy.model).*1.
Proof. cbn. apply NoDup_singleton. Qed.

Lemma train_model_zero_epochs_witness :
  NoDup (named_parameters Toy.model).*1 ∧
  is_Some (Torch.parameter_values Toy.model (heap Toy.start)) ∧
  train_model Toy.model Toy.model_name Toy.dataloaders Toy.scheduler Toy.args 0
              Toy.start =
    Some (emit (LogBestF1 0) (emit (LogBestRecall 0) (emit (LogBestPrecision 0)
            (emit (LogBestAcc 0) (emit LogElapsed Toy.start)))),
          (Toy.model, {| loss_train := []; loss_val := [] |}, 0, 0, 0)).
Proof.
  assert (is_Some (Torch.parameter_values Toy.model (heap Toy.start))) as Hs
    by (by eexists; vm_compute).
  split; [exact toy_names_nodup|]. split; [exact Hs|].
  exact (train_model_zero_epochs Toy.model Toy.model_name Toy.dataloaders
           Toy.scheduler Toy.args Toy.start toy_names_nodup Hs).
Defined.

Lemma final_reload_changes_nothing_witness :
  NoDup (named_parameters Toy.model).*1 ∧
  ∃ s' ret,
    train_model Toy.model Toy.model_name Toy.dataloaders Toy.scheduler Toy.args 2
                Toy.start = Some (s', ret) ∧
    ∃ s_last l_last,
      after_epochs Toy.model Toy.model_name Toy.dataloaders 2 2 Toy.start
        = Some (s_last, l_last) ∧
      heap s' = heap s_last ∧
      Torch.parameter_values ret.1.1.1.1 (heap s')
        = Torch.parameter_values Toy.model (heap s_last).
Proof.
  split; [exact toy_names_nodup|].
  destruct (train_model Toy.model Toy.model_name Toy.dataloaders Toy.scheduler
              Toy.args 2 Toy.start) as [[s' ret]|] eqn:E; [|by vm_compute in E].
  exists s', ret. split; [done|].
  exact (final_reload_changes_nothing _ _ _ _ _ _ _ _ _ toy_names_nodup E).
Defined.

(** ** The loss history and the figure *)

Lemma model_loss_set_length phase epoch x ml :
  length (loss_train (model_loss_set phase epoch x ml)) = length (loss_train ml) ∧
  length (loss_val (model_loss_set phase epoch x ml)) = length (loss_val ml).
Proof. destruct phase; cbn; by rewrite length_insert. Qed.

Section history.
Context {Rng O : Type}.
Context `{!Network Rng, !Loss, !Autograd Rng, !Optimizer O}.
Implicit Types (s : State Rng O) (model : NnModule) (l : Locals).

Lemma run_phase_history model model_name dataloaders epoch phase s l s' l' :
  run_phase model model_name dataloaders epoch phase s l = Some (s', l') →
  ∃ s1 m,
    measure_phase model dataloaders epoch phase s = Some (s1, m) ∧
    model_loss l' = model_loss_set phase epoch (epoch_loss m) (model_loss l).
Proof.
  unfold run_phase. intros Hc.
  apply bind_Some in Hc as ([s1 m] & Hm & Hc). cbv beta iota in Hc.
  apply keep_best_inv in Hc as (_ & _ & _ & Hml & _).
  by exists s1, m.
Qed.

Lemma run_epoch_history_length model model_name dataloaders num_epochs epoch s l s' l' :
  run_epoch model model_name dataloaders num_epochs epoch s l = Some (s', l') →
  length (loss_train (model_loss l')) = length (loss_train (model_loss l)) ∧
  length (loss_val (model_loss l')) = length (loss_val (model_loss l)).
Proof.
  unfold run_epoch. intros Hc.
  apply bind_Some in Hc as ([s1 l1] & Ht & Hv). cbv beta iota in Hv.
  apply run_phase_history in Ht as (? & mt & _ & Ht).
  apply run_phase_history in Hv as (? & mv & _ & Hv).
  rewrite Hv, Ht.
  destruct (model_loss_set_length val epoch (epoch_loss mv)
              (model_loss_set train epoch (epoch_loss mt) (model_loss l))) as [-> ->].
  apply model_loss_set_length.
Qed.

Lemma after_epochs_history_length model model_name dataloaders num_epochs n :
  ∀ s s_n l_n,
    after_epochs model model_name dataloaders num_epochs n s = Some (s_n, l_n) →
    length (loss_train (model_loss l_n)) = num_epochs ∧
    length (loss_val (model_loss l_n)) = num_epochs.
Proof.
  induction n as [|n IH]; intros s s2 l2 Hc.
  - unfold after_epochs in Hc. cbn in Hc. injection Hc as _ <-. cbn.
    by rewrite !length_replicate.
  - rewrite after_epochs_S in Hc.
    apply bind_Some in Hc as ([s1 l1] & Hn & Hc). cbv beta iota in Hc.
    apply IH in Hn as [Ht Hv].
    apply run_epoch_history_length in Hc as [-> ->]. done.
Qed.

(** X7.  The loss history [train_model] returns has one entry per epoch for
    each of the two phases, however the run went. *)
Theorem loss_history_length model model_name dataloaders sched args num_epochs s s' ret :
  train_model model model_name dataloaders sched args num_epochs s = Some (s', ret) →
  length (loss_train ret.1.1.1.2) = num_epochs ∧
  length (loss_val ret.1.1.1.2) = num_epochs.
Proof.
  unfold train_model. intros Hc.
  apply bind_Some in Hc as ([s1 l1] & Hn & Hc). cbv beta iota in Hc.
  apply bind_Some in Hc as (h & _ & Hc). injection Hc as _ <-. cbn.
  by eapply after_epochs_history_length.
Qed.

(** What a completed training run of [main] leaves behind. *)
Lemma main_training_facts (corpus : Corpus) (args : Args.t) (r : Rng)
    (files : gmap string checkpoint) (figs : gmap string Figure) (s' : State Rng O) :
  Args.test args = false →
  main corpus args r files figs = Some s' →
  (∃ fig,
      graphs s' = <[graph_path (model_name_of args) := fig]> figs ∧
      fig_x fig = linspace_1_n (Args.epochs args) ∧
      length (fig_train fig) = Args.epochs args ∧
      length (fig_valid fig) = Args.epochs args) ∧
  (∀ path, path ≠ checkpoint_path (model_name_of args) →
           disk s' !! path = files !! path).
Proof.
  intros Htest Hc. unfold main in Hc. rewrite Htest in Hc. cbn [negb] in Hc.
  destruct (new_model _ r ∅) as [[model h] r'].
  apply bind_Some in Hc as (s1 & Hc & Hs'). injection Hs' as <-.
  apply bind_Some in Hc as ([s2 ret] & Htrain & Hc). cbv beta iota in Hc.
  destruct ret as [[[[m ml] bp] br] bf]. injection Hc as <-.
  assert (length (loss_train ml) = Args.epochs args ∧
          length (loss_val ml) = Args.epochs args) as [Hlt Hlv].
  { unfold train_model in Htrain.
    apply bind_Some in Htrain as ([s3 l3] & Hn & Htrain). cbv beta iota in Htrain.
    apply bind_Some in Htrain as (h' & _ & Htrain). injection Htrain as _ _ <- _ _ _.
    by eapply after_epochs_history_length. }
  assert (graphs s2 = figs ∧
          ∀ path, path ≠ checkpoint_path (model_name_of args) →
                  disk s2 !! path = files !! path) as [Hg Hd].
  { unfold train_model in Htrain.
    apply bind_Some in Htrain as ([s3 l3] & Hn & Htrain). cbv beta iota in Htrain.
    apply bind_Some in Htrain as (h' & _ & Htrain). injection Htrain as <- _ _ _ _ _.
    apply after_epochs_checkpoint in Hn as [Hg Hd]. cbn in *. split; [done|].
    intros path Hpath.
    destruct Hd as [(-> & _)|(k & _ & (? & ? & ? & ? & c & _ & _ & _ & _ & _ & _ & _ & ->))];
      [done|].
    by rewrite lookup_insert_ne. }
  split.
  - eexists. cbn. rewrite Hg. split; [reflexivity|]. cbn. by rewrite Hlt.
  - intros path Hpath. cbn. by apply Hd.
Qed.


End history.

Lemma loss_history_length_witness :
  ∃ s' ret,
    train_model Toy.model Toy.model_name Toy.dataloaders Toy.scheduler Toy.args 2
                Toy.start = Some (s', ret) ∧
    length (loss_train ret.1.1.1.2) = 2%nat ∧
    length (loss_val ret.1.1.1.2) = 2%nat.
Proof.
  destruct (train_model Toy.model Toy.model_name Toy.dataloaders Toy.scheduler
              Toy.args 2 Toy.start) as [[s' ret]|] eqn:E; [|by vm_compute in E].
  exists s', ret. split; [done|].
  exact (loss_history_length _ _ _ _ _ _ _ _ _ E).
Defined.


(** ** Evaluation: shapes, and [main --test] *)

Lemma select_binary (t p : Qc) : select t p = 0 ∨ select t p = 1.
Proof. unfold select. destruct (Num.gtb p t); [by right|by left]. Qed.

Lemma where_gt_binary (t : Qc) (pred : matrix Qc) :
  Forall (Forall (λ q, q = 0 ∨ q = 1)) (where_gt t pred).
Proof.
  unfold where_gt. apply Forall_fmap, Forall_true. intros row. cbn.
  apply Forall_fmap, Forall_true. intros p. apply select_binary.
Qed.

Section evaluation.
Context {Rng O : Type}.
Context `{!Network Rng}.
Implicit Types (s : State Rng O) (model : NnModule).

Lemma test_step_shape model b s yt yp s' yt' yp' n :
  well_shaped n yt yp →
  test_step model b s yt yp = Some (s', yt', yp') →
  well_shaped (n + batch_example_count b) yt' yp'.
Proof.
  intros (Hn & Hwt & Hwp & Hbin). unfold test_step. intros Hc.
  apply bind_Some in Hc as (targets & Ht & Hc).
  apply bind_Some in Hc as ([[outputs pred] s1] & _ & Hc). cbv beta iota in Hc.
  apply bind_Some in Hc as (yt1 & Hyt & Hc).
  apply bind_Some in Hc as (yp1 & Hyp & Hc).
  injection Hc as _ <- <-.
  pose proof (np_append_rows_width _ _ _ _ Hyt) as Hw1.
  pose proof (np_append_rows_width _ _ _ _ Hyp) as Hw2.
  apply np_append_rows_Some in Hyt as ->. apply np_append_rows_Some in Hyp as ->.
  repeat split.
  - rewrite length_app, Hn, (torch_stack1_rows _ _ Ht). done.
  - by apply Forall_app.
  - by apply Forall_app.
  - apply Forall_app. split; [done|apply where_gt_binary].
Qed.

Lemma test_loop_shape model bs :
  ∀ s yt yp s' yt' yp' n,
    well_shaped n yt yp →
    test_loop model bs s yt yp = Some (s', yt', yp') →
    well_shaped (n + sum_list (map batch_example_count bs)) yt' yp'.
Proof.
  induction bs as [|b bs IH]; intros s yt yp s' yt' yp' n Hw Hc; cbn in Hc.
  - injection Hc as _ <- <-. cbn. by rewrite Nat.add_0_r.
  - apply bind_Some in Hc as ([[s1 yt1] yp1] & Hb & Hc). cbv beta iota in Hc.
    eapply test_step_shape in Hb; [|done].
    eapply IH in Hc; [|done]. cbn. by rewrite Nat.add_assoc.
Qed.

Lemma test_loop_state model bs s yt yp s' yt' yp' :
  test_loop model bs s yt yp = Some (s', yt', yp') →
  training s = false →
  s' = s.
Proof.
  intros Hc Ht.
  pose proof (test_loop_det model bs s s yt yp Ht Ht eq_refl) as Hdet.
  rewrite Hc in Hdet. by destruct Hdet as (-> & _).
Qed.

Lemma test_model_inv model test_loader s s' yt yp :
  test_model model test_loader s = Some (s', (yt, yp)) →
  ∃ s1 acc precision recall f1,
    test_loop model (batches_of_pass test_loader 0) (with_training false s) [] []
      = Some (s1, yt, yp) ∧
    Sklearn.accuracy_score yt yp = Some acc ∧
    Sklearn.precision_recall_fscore yt yp = Some (precision, recall, f1) ∧
    s' = emit (PrintTest acc precision recall f1) s1.
Proof.
  unfold test_model. intros Hc.
  apply bind_Some in Hc as ([[s1 yt1] yp1] & Hl & Hc). cbv beta iota in Hc.
  apply bind_Some in Hc as (acc & Hacc & Hc).
  apply bind_Some in Hc as ([[precision recall] f1] & Hprf & Hc).
  cbv beta iota in Hc. injection Hc as <- <- <-.
  by exists s1, acc, precision, recall, f1.
Qed.

(** X9.  The matrices [test_model] returns have one row per example of the
    batches it ran over and seven columns each, the predictions are all 0 or
    1, and the two matrices have the same number of rows. *)
Theorem test_model_shapes model test_loader s s' yt yp :
  test_model model test_loader s = Some (s', (yt, yp)) →
  well_shaped (sum_list (map batch_example_count (batches_of_pass test_loader 0))) yt yp ∧
  length yp = length yt.
Proof.
  intros (s1 & acc & precision & recall & f1 & Hl & Hacc & _ & _)%test_model_inv.
  eapply test_loop_shape in Hl; [|by repeat split]. split; [exact Hl|].
  unfold Sklearn.accuracy_score in Hacc.
  destruct (Nat.eqb (length yt) (length yp)) eqn:E; [|done].
  by apply Nat.eqb_eq in E.
Qed.

End evaluation.

Section main_test.
Context {Rng O : Type}.
Context `{!Network Rng, !Loss, !Autograd Rng, !Optimizer O}.

(** X10.  [main --test] without a checkpoint file for the chosen network
    does not complete: loading the file raises. *)
Theorem main_test_needs_checkpoint (corpus : Corpus) (args : Args.t) (r : Rng)
    (files : gmap string checkpoint) (figs : gmap string Figure) :
  Args.test args = true →
  files !! checkpoint_path (model_name_of args) = None →
  main (O := O) corpus args r files figs = None.
Proof.
  intros Htest Hfile. unfold main. rewrite Htest. cbn [negb].
  destruct (new_model _ r ∅) as [[model h] r'].
  unfold Torch.load. cbn. by rewrite Hfile.
Qed.

(** What a completed evaluation run of [main] leaves behind. *)
Lemma main_test_facts (corpus : Corpus) (args : Args.t) (r : Rng)
    (files : gmap string checkpoint) (figs : gmap string Figure) (s' : State Rng O) :
  Args.test args = true →
  main corpus args r files figs = Some s' →
  disk s' = files ∧ graphs s' = figs ∧
  ∃ acc precision recall f1,
    log s' = [LogInfo "Testing..."; PrintTest acc precision recall f1;
              LogInfo "Completed Successfully!"].
Proof.
  intros Htest Hc. unfold main in Hc. rewrite Htest in Hc. cbn [negb] in Hc.
  destruct (new_model _ r ∅) as [[model h] r'].
  apply bind_Some in Hc as (s1 & Hc & Hs'). injection Hs' as <-.
  apply bind_Some in Hc as ([sd h1] & _ & Hc). cbv beta iota in Hc.
  apply bind_Some in Hc as (h2 & _ & Hc).
  apply bind_Some in Hc as ([s2 [yt yp]] & Ht & Hc). cbv beta iota in Hc.
  injection Hc as <-.
  apply test_model_inv in Ht as (s3 & acc & precision & recall & f1 & Hl & _ & _ & ->).
  apply test_loop_state in Hl as ->; [|done].
  cbn. repeat split. by exists acc, precision, recall, f1.
Qed.


(** X17.  A run of [main] for one of the two networks (with or without
    attention) leaves the checkpoint file and the figure of the other one as
    they were. *)
Theorem attention_runs_do_not_collide (corpus : Corpus) (args other : Args.t) (r : Rng)
    (files : gmap string checkpoint) (figs : gmap string Figure) (s' : State Rng O) :
  Args.attention other ≠ Args.attention args →
  main corpus args r files figs = Some s' →
  disk s' !! checkpoint_path (model_name_of other)
    = files !! checkpoint_path (model_name_of other) ∧
  graphs s' !! graph_path (model_name_of other)
    = figs !! graph_path (model_name_of other).
Proof.
  intros Hne Hc.
  assert (checkpoint_path (model_name_of other) ≠ checkpoint_path (model_name_of args) ∧
          graph_path (model_name_of other) ≠ graph_path (model_name_of args)) as [Hp Hg].
  { unfold model_name_of.
    destruct (Args.attention other), (Args.attention args); by cbn. }
  destruct (Args.test args) eqn:Htest.
  - apply main_test_facts in Hc as (-> & -> & _); done.
  - apply main_training_facts in Hc as [(fig & -> & _) Hd]; [|done].
    split; [by apply Hd|]. by rewrite lookup_insert_ne.
Qed.

End main_test.

Lemma test_model_shapes_witness :
  ∃ s' yt yp,
    test_model Toy.model Toy.loader2 Toy.start = Some (s', (yt, yp)) ∧
    well_shaped (sum_list (map batch_example_count (batches_of_pass Toy.loader2 0))) yt yp ∧
    length yp = length yt.
Proof.
  destruct (test_model Toy.model Toy.loader2 Toy.start) as [[s' [yt yp]]|] eqn:E;
    [|by vm_compute in E].
  exists s', yt, yp. split; [done|].
  exact (test_model_shapes _ _ _ _ _ _ E).
Defined.

Lemma main_test_needs_checkpoint_witness :
  Args.test Fixtures.args_test = true ∧
  (∅ : gmap string checkpoint) !! checkpoint_path (model_name_of Fixtures.args_test) = None ∧
  main (O := unit) Toy.corpus Fixtures.args_test 0%nat ∅ ∅ = None.
Proof.
  split; [reflexivity|]. split; [reflexivity|].
  exact (main_test_needs_checkpoint Toy.corpus Fixtures.args_test 0%nat ∅ ∅
           eq_refl eq_refl).
Defined.


(** ** Progress lines, label fields and the sign of the loss *)

Lemma multiples_of_50 (n : nat) :
  ∀ idx,
    length (filter (λ i, i `mod` 50 = 0)%nat (seq idx n))
    = ((idx + n + 49) / 50 - (idx + 49) / 50)%nat.
Proof.
  induction n as [|n IH]; intros idx.
  - cbn [seq filter list_filter length]. rewrite Nat.add_0_r. lia.
  - cbn [seq]. rewrite filter_cons. specialize (IH (S idx)).
    pose proof (Nat.div_mod (idx + 49) 50) as H1.
    pose proof (Nat.mod_upper_bound (idx + 49) 50) as H2.
    pose proof (Nat.div_mod (S idx + 49) 50) as H3.
    pose proof (Nat.mod_upper_bound (S idx + 49) 50) as H4.
    pose proof (Nat.div_mod idx 50) as H5.
    pose proof (Nat.mod_upper_bound idx 50) as H6.
    pose proof (Nat.Div0.div_le_mono (S idx + 49) (S idx + n + 49) 50) as H7.
    replace (idx + S n + 49)%nat with (S idx + n + 49)%nat by lia.
    case_decide; cbn [length]; rewrite IH; lia.
Qed.

Section progress.
Context {Rng O : Type}.
Context `{!Network Rng, !Loss, !Autograd Rng, !Optimizer O}.
Implicit Types (s : State Rng O) (model : NnModule) (b : Batch).

Lemma batch_step_log model phase epoch dataset_size n_batches batch_idx b s a s' a' :
  batch_step model phase epoch dataset_size n_batches batch_idx b s a = Some (s', a') →
  ∃ loss percent,
    log s' = log s ++
      (if decide (phase = train ∧ batch_idx `mod` 50 = 0)%nat
       then [LogProgress (epoch + 1) ((batch_idx + 1) * length (labels b))
                         dataset_size percent loss]
       else []).
Proof.
  intros (targets & outputs & pred & s1 & loss & s2 & _ & Hm & _ & Hs2 & _ & _ & _ & Hs')
    %batch_step_inv.
  apply model_call_frame in Hm as (_ & _ & _ & _ & _ & Hl1).
  assert (log s2 = log s) as Hl2.
  { destruct (decide (phase = train)).
    - apply backward_and_step_frame in Hs2 as (_ & _ & _ & _ & _ & _ & ?). congruence.
    - by subst s2. }
  destruct (decide (phase = train ∧ batch_idx `mod` 50 = 0)%nat).
  - destruct Hs' as (percent & _ & ->). exists loss, percent. cbn. by rewrite Hl2.
  - subst s'. exists loss, 0. by rewrite app_nil_r.
Qed.

Lemma batch_loop_progress model epoch dataset_size n_batches bs :
  ∀ batch_idx s a s' a',
    batch_loop model train epoch dataset_size n_batches batch_idx bs s a = Some (s', a') →
    length (logged_progress (log s'))
    = (length (logged_progress (log s))
       + length (filter (λ i, i `mod` 50 = 0)%nat (seq batch_idx (length bs))))%nat.
Proof.
  induction bs as [|b bs IH]; intros batch_idx s a s' a' Hc; cbn in Hc.
  - injection Hc as <- <-. cbn. by rewrite Nat.add_0_r.
  - apply bind_Some in Hc as ([s1 a1] & Hb & Hc). cbv beta iota in Hc.
    apply batch_step_log in Hb as (loss & percent & Hlog).
    apply IH in Hc as ->.
    cbn [length seq]. rewrite filter_cons.
    unfold logged_progress. rewrite Hlog, omap_app, length_app.
    destruct (decide (train = train ∧ batch_idx `mod` 50 = 0)%nat) as [[_ Hm]|Hn].
    + rewrite decide_True by done. cbn [omap list_omap length]. lia.
    + rewrite decide_False by tauto. cbn [omap list_omap length]. lia.
Qed.

(** X12.  A training phase over [n] batches logs one progress line for every
    fiftieth batch, starting with the first: [(n + 49) / 50] lines in all. *)
Theorem training_phase_progress_lines model dataloaders epoch s s' m :
  measure_phase model dataloaders epoch train s = Some (s', m) →
  length (logged_progress (log s'))
  = (length (logged_progress (log s)) + (loader_len (dataloaders train) epoch + 49) / 50)%nat.
Proof.
  unfold measure_phase. intros Hc.
  apply bind_Some in Hc as ([s1 a] & Hb & Hc). cbv beta iota in Hc.
  apply bind_Some in Hc as (loss & _ & Hc).
  apply bind_Some in Hc as (acc & _ & Hc).
  apply bind_Some in Hc as ([[precision recall] f1] & _ & Hc).
  cbv beta iota in Hc. injection Hc as <- _.
  apply batch_loop_progress in Hb. rewrite Hb, multiples_of_50. cbn.
  unfold loader_len. rewrite Nat.sub_0_r. done.
Qed.

Lemma batch_loop_label_fields model phase epoch dataset_size n_batches bs :
  ∀ batch_idx s a s' a',
    batch_loop model phase epoch dataset_size n_batches batch_idx bs s a = Some (s', a') →
    Forall (λ b, (0 < batch_example_count b)%nat → length (labels b) = no_of_classes) bs.
Proof.
  induction bs as [|b bs IH]; intros batch_idx s a s' a' Hc; [done|].
  cbn in Hc. apply bind_Some in Hc as ([s2 a2] & Hstep & Hc). cbv beta iota in Hc.
  constructor; [|by eapply IH].
  by apply batch_step_rows in Hstep as [_ ?].
Qed.

(** X13.  Every batch with at least one example that a phase ran over has
    exactly seven target tensors, one per frame class; any other number
    makes the phase raise. *)
Theorem phase_requires_seven_label_fields model dataloaders epoch phase s s' m :
  measure_phase model dataloaders epoch phase s = Some (s', m) →
  Forall (λ b, (0 < batch_example_count b)%nat → length (labels b) = no_of_classes)
         (batches_of_pass (dataloaders phase) epoch).
Proof.
  unfold measure_phase. intros Hc.
  apply bind_Some in Hc as ([s1 a] & Hb & _).
  by eapply batch_loop_label_fields.
Qed.

(** X14.  When the loss function never returns a negative batch loss, the
    epoch loss of a phase is not negative; and a phase that completes ran
    over a dataset that is not empty. *)
Theorem epoch_loss_nonnegative model dataloaders epoch phase s s' m :
  (∀ outputs targets x, criterion outputs targets = Some x → 0 ≤ x) →
  measure_phase model dataloaders epoch phase s = Some (s', m) →
  0 ≤ epoch_loss m ∧ (0 < dataset_len (dataloaders phase))%nat.
Proof.
  intros Hcrit Hc.
  apply measure_phase_loss in Hc as (a & _ & Hpos & _ & Hnn).
  split; [by apply Hnn|done].
Qed.

End progress.

Lemma training_phase_progress_lines_witness :
  ∃ s' m,
    measure_phase Toy.model Toy.dataloaders 0 train Toy.start = Some (s', m) ∧
    length (logged_progress (log s'))
    = (length (logged_progress (log Toy.start))
       + (loader_len (Toy.dataloaders train) 0 + 49) / 50)%nat.
Proof.
  destruct (measure_phase Toy.model Toy.dataloaders 0 train Toy.start)
    as [[s' m]|] eqn:E; [|by vm_compute in E].
  exists s', m. split; [done|].
  exact (training_phase_progress_lines _ _ _ _ _ _ E).
Defined.

Lemma phase_requires_seven_label_fields_witness :
  ∃ s' m,
    measure_phase Toy.model Toy.dataloaders 0 val Toy.start = Some (s', m) ∧
    Forall (λ b, (0 < batch_example_count b)%nat → length (labels b) = no_of_classes)
           (batches_of_pass (Toy.dataloaders val) 0).
Proof.
  destruct (measure_phase Toy.model Toy.dataloaders 0 val Toy.start)
    as [[s' m]|] eqn:E; [|by vm_compute in E].
  exists s', m. split; [done|].
  exact (phase_requires_seven_label_fields _ _ _ _ _ _ _ E).
Defined.

Lemma toy_loss_nonneg (outputs targets : matrix Qc) (x : Qc) :
  criterion outputs targets = Some x → 0 ≤ x.
Proof. cbn. by intros [= <-]. Qed.

Lemma epoch_loss_nonnegative_witness :
  ∃ s' m,
    measure_phase Toy.model Toy.dataloaders 0 train Toy.start = Some (s', m) ∧
    0 ≤ epoch_loss m ∧ (0 < dataset_len (Toy.dataloaders train))%nat.
Proof.
  destruct (measure_phase Toy.model Toy.dataloaders 0 train Toy.start)
    as [[s' m]|] eqn:E; [|by vm_compute in E].
  exists s', m. split; [done|].
  exact (epoch_loss_nonnegative _ _ _ _ _ _ _ toy_loss_nonneg E).
Defined.

(** ** Saving and loading a checkpoint *)

Lemma contents_spec (sd : state_dict) (h : store) (c : checkpoint) :
  Torch.contents sd h = Some c →
  Forall2 (λ nl nv, nv.1 = nl.1 ∧ h !! nl.2 = Some nv.2) sd c.
Proof.
  unfold Torch.contents. intros Hc. apply mapM_Some in Hc.
  eapply Forall2_impl; [exact Hc|]. intros [n l] [n' v] Hb. cbn in *.
  apply bind_Some in Hb as (v0 & Hv & Hb). by simplify_eq.
Qed.

Lemma materialize_spec (c : checkpoint) :
  ∀ (h : store) sd h',
    Torch.materialize c h = (sd, h') →
    Forall2 (λ nv nl, nl.1 = nv.1 ∧ h' !! nl.2 = Some nv.2 ∧ h !! nl.2 = None) c sd ∧
    h ⊆ h'.
Proof.
  induction c as [|[name v] c IH]; intros h sd h' Hm; cbn in Hm.
  - by simplify_eq.
  - destruct (Torch.materialize c (<[fresh (dom h) := v]> h)) as [sd1 h1] eqn:E.
    injection Hm as <- <-.
    assert (h !! fresh (dom h) = None) as Hfresh
      by (apply not_elem_of_dom, is_fresh).
    apply IH in E as [Hall Hsub].
    assert (h ⊆ h1) as Hsub'.
    { etrans; [|exact Hsub]. by apply insert_subseteq. }
    split; [|done]. constructor.
    + cbn. repeat split; [|done].
      eapply lookup_weaken; [|exact Hsub]. apply lookup_insert_eq.
    + eapply Forall2_impl; [exact Hall|]. intros [n1 v1] [n2 l2] (? & ? & Hnone).
      cbn in *. repeat split; try done.
      destruct (h !! l2) as [x|] eqn:Hx; [|done].
      eapply lookup_weaken in Hx; [|by apply (insert_subseteq _ (fresh (dom h)) v)].
      congruence.
Qed.

Lemma lookup_name_elem {A} (name : string) (d : list (string * A)) (x : A) :
  Torch.lookup_name name d = Some x → x ∈ d.*2.
Proof.
  unfold Torch.lookup_name. intros Hl.
  apply bind_Some in Hl as ([i [n y]] & Hf & Hl). cbn in Hl. injection Hl as ->.
  apply list_find_Some in Hf as (Hi & _).
  apply list_elem_of_fmap. exists (n, x). split; [done|].
  by eapply list_elem_of_lookup_2.
Qed.

Lemma copy_params_other (ps : list (string * loc)) (sd : state_dict) :
  ∀ (h h' : store) l,
    Torch.copy_params ps sd h = Some h' → l ∉ ps.*2 → h' !! l = h !! l.
Proof.
  induction ps as [|[name l0] ps IH]; intros h h' l Hc Hl; cbn in Hc.
  - by simplify_eq.
  - apply bind_Some in Hc as (src & _ & Hc).
    apply bind_Some in Hc as (v & _ & Hc).
    cbn in Hl. apply not_elem_of_cons in Hl as [Hne Hl].
    rewrite (IH _ _ _ Hc Hl). by apply lookup_insert_ne.
Qed.

(** Copying from sources that are no destination: every parameter ends up
    with the value its source had at the start. *)
Lemma copy_params_spec (ps : list (string * loc)) (sd : state_dict) :
  ∀ (h h' : store),
    Torch.copy_params ps sd h = Some h' →
    (∀ l, l ∈ ps.*2 → l ∉ sd.*2) →
    NoDup ps.*2 →
    Forall (λ nl, ∃ src v, Torch.lookup_name nl.1 sd = Some src ∧
                           h !! src = Some v ∧ h' !! nl.2 = Some v) ps.
Proof.
  induction ps as [|[name l] ps IH]; intros h h' Hc Hdis Hnd; [done|].
  cbn in Hc.
  apply bind_Some in Hc as (src & Hsrc & Hc).
  apply bind_Some in Hc as (v & Hv & Hc).
  cbn in Hnd. apply NoDup_cons in Hnd as [Hl Hnd].
  constructor.
  - exists src, v. cbn. repeat split; try done.
    rewrite (copy_params_other _ _ _ _ _ Hc Hl). apply lookup_insert_eq.
  - eapply Forall_impl.
    + eapply IH; [exact Hc| |done].
      intros l1 Hl1. apply Hdis. cbn. by apply list_elem_of_further.
    + intros [n1 l1] (src1 & v1 & Hs1 & Hv1 & Hh1). exists src1, v1.
      repeat split; try done.
      rewrite lookup_insert_ne in Hv1; [done|].
      intros ->. apply (Hdis src1); [cbn; apply list_elem_of_here|].
      by eapply lookup_name_elem.
Qed.

(** X15.  A checkpoint saved from one network and loaded into a network
    with the same parameter names gives that network the parameter values
    the first one had when the file was written, whatever its own values
    were. *)
Theorem checkpoint_round_trip (model model' : NnModule) (path : string)
    (h h1 h2 h3 : store) (d d' : gmap string checkpoint) (sd : state_dict) :
  NoDup (named_parameters model).*1 →
  (named_parameters model').*1 = (named_parameters model).*1 →
  NoDup (named_parameters model').*2 →
  is_Some (Torch.parameter_values model' h1) →
  Torch.save (Torch.get_state_dict model) path h d = Some d' →
  Torch.load path h1 d' = Some (sd, h2) →
  Torch.load_state_dict model' sd h2 = Some h3 →
  Torch.parameter_values model' h3 = Torch.parameter_values model h.
Proof.
  intros Hnd Hnames Hnd' [vs1 Halloc] Hsave Hload Hcopy.
  unfold Torch.save, Torch.get_state_dict in Hsave.
  apply bind_Some in Hsave as (c & Hcont & Hsave). injection Hsave as <-.
  unfold Torch.load in Hload. rewrite lookup_insert_eq in Hload. cbn in Hload.
  injection Hload as Hmat.
  apply contents_spec in Hcont.
  apply materialize_spec in Hmat as [Hmat Hsub].
  unfold Torch.parameter_values in Halloc. apply mapM_Some in Halloc.
  assert (c.*1 = (named_parameters model).*1) as Hc1.
  { symmetry. apply list_eq_Forall2. apply Forall2_fmap.
    eapply Forall2_impl; [exact Hcont|]. by intros [??] [??] [? _]. }
  assert (sd.*1 = c.*1) as Hsd1.
  { symmetry. apply list_eq_Forall2. apply Forall2_fmap.
    eapply Forall2_impl; [exact Hmat|]. by intros [??] [??] [? _]. }
  unfold Torch.load_state_dict in Hcopy.
  apply copy_params_spec in Hcopy; [|clear Hcopy|done].
  2:{ intros l Hl Hl'.
      apply list_elem_of_fmap in Hl as ([n0 l0] & -> & Hin).
      apply list_elem_of_lookup in Hin as [i Hi].
      destruct (Forall2_lookup_l _ _ _ _ _ Halloc Hi) as (v0 & _ & Hv0). cbn in Hv0.
      apply list_elem_of_fmap in Hl' as ([n1 l1] & Heq & Hin1). cbn in Heq. subst l1.
      apply list_elem_of_lookup in Hin1 as [j Hj].
      destruct (Forall2_lookup_r _ _ _ _ _ Hmat Hj) as (nv & _ & _ & _ & Hnone).
      cbn in Hnone. congruence. }
  transitivity (Some c.*2).
  - unfold Torch.parameter_values. apply mapM_Some. apply Forall2_fmap_r.
    apply Forall2_same_length_lookup_2.
    + rewrite <- (length_fmap fst (named_parameters model')), Hnames, <- Hc1.
      by rewrite length_fmap.
    + intros i [n' l'] [nc vc] Hi Hci. cbn.
      rewrite Forall_lookup in Hcopy.
      destruct (Hcopy i _ Hi) as (src & v & Hsrc & Hv & Hh3). cbn in *.
      rewrite Hh3. f_equal.
      destruct (Forall2_lookup_l _ _ _ _ _ Hmat Hci) as ([n2 l2] & Hsdi & Hn2 & Hl2 & _).
      cbn in *. subst n2.
      assert (n' = nc) as ->.
      { assert ((named_parameters model').*1 !! i = Some n') as H1
          by (by rewrite list_lookup_fmap, Hi).
        assert (c.*1 !! i = Some nc) as H2 by (by rewrite list_lookup_fmap, Hci).
        rewrite Hnames, <- Hc1 in H1. congruence. }
      assert (Torch.lookup_name nc sd = Some l2) as Hl.
      { apply lookup_name_self; [by rewrite Hsd1, Hc1|].
        by eapply list_elem_of_lookup_2. }
      congruence.
  - symmetry. unfold Torch.parameter_values. apply mapM_Some. apply Forall2_fmap_r.
    eapply Forall2_impl; [exact Hcont|]. by intros [??] [??] [_ ?].
Qed.

Lemma checkpoint_round_trip_witness :
  ∃ d' sd h2 h3,
    Torch.save (Torch.get_state_dict Toy.model) Toy.model_name Fixtures.store2 ∅ = Some d' ∧
    Torch.load Toy.model_name Fixtures.store2 d' = Some (sd, h2) ∧
    Torch.load_state_dict Fixtures.model' sd h2 = Some h3 ∧
    Torch.parameter_values Fixtures.model' h3
      = Torch.parameter_values Toy.model Fixtures.store2.
Proof.
  destruct (Torch.save (Torch.get_state_dict Toy.model) Toy.model_name Fixtures.store2 ∅)
    as [d'|] eqn:E1; [|by vm_compute in E1].
  destruct (Torch.load Toy.model_name Fixtures.store2 d') as [[sd h2]|] eqn:E2.
  2:{ vm_compute in E1. injection E1 as <-. by vm_compute in E2. }
  destruct (Torch.load_state_dict Fixtures.model' sd h2) as [h3|] eqn:E3.
  2:{ vm_compute in E1. injection E1 as <-. vm_compute in E2.
      injection E2 as <- <-. by vm_compute in E3. }
  exists d', sd, h2, h3. split; [done|]. split; [done|]. split; [done|].
  refine (checkpoint_round_trip Toy.model Fixtures.model' Toy.model_name
            Fixtures.store2 Fixtures.store2 h2 h3 ∅ d' sd _ _ _ _ E1 E2 E3).
  - apply NoDup_singleton.
  - reflexivity.
  - apply NoDup_singleton.
  - by eexists; vm_compute.
Defined.

(** ** The best F1 is the largest validation F1 *)

Section best_is_max.
Context {Rng O : Type}.
Context `{!Network Rng, !Loss, !Autograd Rng, !Optimizer O}.
Implicit Types (s : State Rng O) (model : NnModule) (l : Locals).

Lemma batch_loop_val_f1 model phase epoch dataset_size n_batches bs :
  ∀ batch_idx s a s' a',
    batch_loop model phase epoch dataset_size n_batches batch_idx bs s a = Some (s', a') →
    logged_val_f1 (log s') = logged_val_f1 (log s).
Proof.
  induction bs as [|b bs IH]; intros batch_idx s a s' a' Hc; cbn in Hc.
  - by simplify_eq.
  - apply bind_Some in Hc as ([s1 a1] & Hb & Hc). cbv beta iota in Hc.
    apply IH in Hc as ->.
    apply batch_step_log in Hb as (loss & percent & ->).
    unfold logged_val_f1. rewrite omap_app.
    case_decide; cbn; by rewrite app_nil_r.
Qed.

Lemma measure_phase_val_f1 model dataloaders epoch phase s s' m :
  measure_phase model dataloaders epoch phase s = Some (s', m) →
  logged_val_f1 (log s') = logged_val_f1 (log s).
Proof.
  unfold measure_phase. intros Hc.
  apply bind_Some in Hc as ([s1 a] & Hb & Hc). cbv beta iota in Hc.
  apply bind_Some in Hc as (loss & _ & Hc).
  apply bind_Some in Hc as (acc & _ & Hc).
  apply bind_Some in Hc as ([[precision recall] f1] & _ & Hc).
  cbv beta iota in Hc. injection Hc as <- _.
  by apply batch_loop_val_f1 in Hb.
Qed.

Lemma keep_best_log model model_name epoch phase m s l s' l' :
  keep_best model model_name epoch phase m s l = Some (s', l') →
  log s' = log s ++ [LogPhase phase (epoch_loss m) (epoch_acc m) (epoch_precision m)
                              (epoch_recall m) (epoch_f1 m)] ∧
  best_f1 l' = if decide (phase = val ∧ best_f1 l < epoch_f1 m)
               then epoch_f1 m else best_f1 l.
Proof.
  unfold keep_best. intros Hc.
  destruct (decide (phase = val ∧ best_f1 l < epoch_f1 m)).
  - apply bind_Some in Hc as (d & _ & Hc). by injection Hc as <- <-.
  - by injection Hc as <- <-.
Qed.

(** One epoch logs exactly one validation F1, and the best F1 becomes the
    larger of the two. *)
Lemma run_epoch_val_f1 model model_name dataloaders num_epochs epoch s l s' l' :
  run_epoch model model_name dataloaders num_epochs epoch s l = Some (s', l') →
  ∃ f1,
    logged_val_f1 (log s') = logged_val_f1 (log s) ++ [f1] ∧
    best_f1 l' = if decide (best_f1 l < f1) then f1 else best_f1 l.
Proof.
  unfold run_epoch, run_phase. intros Hc.
  apply bind_Some in Hc as ([s1 l1] & Ht & Hc). cbv beta iota in Hc.
  apply bind_Some in Ht as ([st mt] & Hmt & Ht). cbv beta iota in Ht.
  apply bind_Some in Hc as ([sv mv] & Hmv & Hc). cbv beta iota in Hc.
  apply measure_phase_val_f1 in Hmt, Hmv.
  apply keep_best_log in Ht as [Hlt Hbt], Hc as [Hlv Hbv].
  rewrite decide_False in Hbt by (by intros [? _]).
  exists (epoch_f1 mv). split.
  - unfold logged_val_f1 in *. rewrite Hlv, omap_app, Hmv, Hlt, omap_app, Hmt.
    cbn. rewrite !omap_app. cbn. by rewrite !app_nil_r.
  - rewrite Hbv, Hbt.
    destruct (decide (best_f1 l < epoch_f1 mv)).
    + by rewrite decide_True.
    + rewrite decide_False; [done|]. by intros [_ ?].
Qed.

Lemma after_epochs_best_is_max model model_name dataloaders num_epochs n :
  ∀ s s_n l_n,
    after_epochs model model_name dataloaders num_epochs n s = Some (s_n, l_n) →
    ∃ fs,
      logged_val_f1 (log s_n) = logged_val_f1 (log s) ++ fs ∧
      length fs = n ∧
      Forall (λ f, f ≤ best_f1 l_n) fs ∧
      (best_f1 l_n = 0 ∨ best_f1 l_n ∈ fs).
Proof.
  induction n as [|n IH]; intros s s2 l2 Hc.
  - unfold after_epochs in Hc. cbn in Hc. injection Hc as <- <-.
    exists []. rewrite app_nil_r. repeat split; [done|by left].
  - rewrite after_epochs_S in Hc.
    apply bind_Some in Hc as ([s1 l1] & Hn & Hc). cbv beta iota in Hc.
    apply IH in Hn as (fs & Hlog & Hlen & Hall & Hin).
    apply run_epoch_val_f1 in Hc as (f1 & Hlog2 & Hbest).
    exists (fs ++ [f1]). rewrite Hlog2, Hlog, length_app, Hlen, <- app_assoc. cbn.
    split; [done|]. split; [lia|].
    destruct (decide (best_f1 l1 < f1)) as [Hlt|Hnlt]; rewrite Hbest.
    + split.
      * apply Forall_app. split; [|by repeat constructor].
        eapply Forall_impl; [exact Hall|]. intros f Hf. cbn in Hf.
        apply Qclt_le_weak. by eapply Qcle_lt_trans.
      * right. apply elem_of_app. right. apply list_elem_of_here.
    + split.
      * apply Forall_app. split; [done|].
        repeat constructor. by apply Qcnot_lt_le.
      * destruct Hin as [?|?]; [by left|]. right. apply elem_of_app. by left.
Qed.

(** X16.  [train_model] logs one validation F1 per epoch, and the best F1 it
    returns is the largest of them, or 0 when none is above 0. *)
Theorem best_f1_is_maximum model model_name dataloaders sched args num_epochs s s' ret :
  train_model model model_name dataloaders sched args num_epochs s = Some (s', ret) →
  ∃ fs,
    logged_val_f1 (log s') = logged_val_f1 (log s) ++ fs ∧
    length fs = num_epochs ∧
    Forall (λ f, f ≤ ret.2) fs ∧
    (ret.2 = 0 ∨ ret.2 ∈ fs).
Proof.
  unfold train_model. intros Hc.
  apply bind_Some in Hc as ([s1 l1] & Hn & Hc). cbv beta iota in Hc.
  apply bind_Some in Hc as (h & _ & Hc). injection Hc as <- <-.
  apply after_epochs_best_is_max in Hn as (fs & Hlog & Hlen & Hall & Hin).
  exists fs. split; [|done].
  cbn. unfold logged_val_f1 in *. rewrite !omap_app, Hlog. cbn.
  by rewrite !app_nil_r.
Qed.

End best_is_max.

Lemma best_f1_is_maximum_witness :
  ∃ s' ret fs,
    train_model Toy.model Toy.model_name Toy.dataloaders Toy.scheduler Toy.args 2
                Toy.start = Some (s', ret) ∧
    logged_val_f1 (log s') = logged_val_f1 (log Toy.start) ++ fs ∧
    length fs = 2%nat ∧
    Forall (λ f, f ≤ ret.2) fs ∧
    (ret.2 = 0 ∨ ret.2 ∈ fs).
Proof.
  destruct (train_model Toy.model Toy.model_name Toy.dataloaders Toy.scheduler
              Toy.args 2 Toy.start) as [[s' ret]|] eqn:E; [|by vm_compute in E].
  destruct (best_f1_is_maximum _ _ _ _ _ _ _ _ _ E) as (fs & H).
  by exists s', ret, fs.
Defined.

Lemma attention_runs_do_not_collide_witness :
  Args.attention Fixtures.args_attention ≠ Args.attention Toy.args ∧
  ∃ s',
    main (O := unit) Toy.corpus Toy.args 0%nat Fixtures.files' ∅ = Some s' ∧
    disk s' !! checkpoint_path (model_name_of Fixtures.args_attention)
      = Fixtures.files' !! checkpoint_path (model_name_of Fixtures.args_attention).
Proof.
  assert (Args.attention Fixtures.args_attention ≠ Args.attention Toy.args) as Hne
    by (by cbn).
  split; [exact Hne|].
  destruct (main (O := unit) Toy.corpus Toy.args 0%nat Fixtures.files' ∅) as [s'|] eqn:E;
    [|by vm_compute in E].
  exists s'. split; [done|].
  exact (proj1 (attention_runs_do_not_collide Toy.corpus Toy.args Fixtures.args_attention
                  0%nat Fixtures.files' ∅ s' Hne E)).
Defined.

(** ** Which tensors training writes *)

Lemma assign_other (ps : list (string * loc)) :
  ∀ (vs : list tensor) (h : store) l,
    l ∉ ps.*2 → Torch.assign ps vs h !! l = h !! l.
Proof.
  induction ps as [|[name l0] ps IH]; intros vs h l Hl; [done|].
  destruct vs as [|v vs]; [done|]. cbn in *.
  apply not_elem_of_cons in Hl as [Hne Hl].
  rewrite IH by done. by apply lookup_insert_ne.
Qed.

Section written_tensors.
Context {Rng O : Type}.
Context `{!Network Rng, !Loss, !Autograd Rng, !Optimizer O}.
Implicit Types (s : State Rng O) (model : NnModule) (b : Batch) (l : loc).

Lemma backward_and_step_heap model r0 x targets s s1 l :
  backward_and_step model r0 x targets s = Some s1 →
  l ∉ (opt_params (optimizer s)).*2 →
  heap s1 !! l = heap s !! l.
Proof.
  unfold backward_and_step. intros Hc Hl.
  apply bind_Some in Hc as (ps & _ & Hc).
  apply bind_Some in Hc as (vs & _ & Hc).
  destruct (opt_update _ _ _ _) as [o' vs']. injection Hc as <-. cbn.
  by apply assign_other.
Qed.

Lemma batch_step_heap model phase epoch dataset_size n_batches batch_idx b s a s' a' l :
  batch_step model phase epoch dataset_size n_batches batch_idx b s a = Some (s', a') →
  l ∉ (opt_params (optimizer s)).*2 →
  heap s' !! l = heap s !! l.
Proof.
  intros (targets & outputs & pred & s1 & loss & s2 & _ & Hm & _ & Hs2 & _ & _ & _ & Hs')
    %batch_step_inv Hl.
  apply model_call_frame in Hm as (Hh1 & _ & Ho1 & _).
  assert (heap s2 !! l = heap s !! l) as H2.
  { destruct (decide (phase = train)).
    - rewrite <- Hh1. eapply backward_and_step_heap; [done|]. by rewrite Ho1.
    - subst s2. by rewrite Hh1. }
  destruct (decide (phase = train ∧ batch_idx `mod` 50 = 0)%nat).
  - by destruct Hs' as (percent & _ & ->).
  - by subst s'.
Qed.

Lemma batch_loop_heap model phase epoch dataset_size n_batches bs l :
  ∀ batch_idx s a s' a',
    batch_loop model phase epoch dataset_size n_batches batch_idx bs s a = Some (s', a') →
    l ∉ (opt_params (optimizer s)).*2 →
    heap s' !! l = heap s !! l.
Proof.
  induction bs as [|b bs IH]; intros batch_idx s a s' a' Hc Hl; cbn in Hc.
  - by simplify_eq.
  - apply bind_Some in Hc as ([s1 a1] & Hb & Hc). cbv beta iota in Hc.
    pose proof (batch_step_frame _ _ _ _ _ _ _ _ _ _ _ Hb) as (_ & Hp & _).
    rewrite (IH _ _ _ _ _ Hc) by (by rewrite Hp).
    by eapply batch_step_heap.
Qed.

Lemma run_phase_heap model model_name dataloaders epoch phase s lc s' lc' l :
  run_phase model model_name dataloaders epoch phase s lc = Some (s', lc') →
  l ∉ (opt_params (optimizer s)).*2 →
  heap s' !! l = heap s !! l ∧ opt_params (optimizer s') = opt_params (optimizer s).
Proof.
  unfold run_phase. intros Hc Hl.
  apply bind_Some in Hc as ([s1 m] & Hm & Hc). cbv beta iota in Hc.
  apply keep_best_inv in Hc as (Hh & Ho & _).
  pose proof (measure_phase_frame _ _ _ _ _ _ _ Hm) as (_ & Hp & _).
  rewrite Hh, Ho. split; [|done].
  unfold measure_phase in Hm.
  apply bind_Some in Hm as ([s2 a] & Hb & Hm). cbv beta iota in Hm.
  apply bind_Some in Hm as (? & _ & Hm).
  apply bind_Some in Hm as (? & _ & Hm).
  apply bind_Some in Hm as ([[??]?] & _ & Hm). cbv beta iota in Hm.
  injection Hm as <- _.
  by apply (batch_loop_heap _ _ _ _ _ _ l) in Hb.
Qed.

Lemma after_epochs_heap model model_name dataloaders num_epochs n l :
  ∀ s s_n l_n,
    after_epochs model model_name dataloaders num_epochs n s = Some (s_n, l_n) →
    l ∉ (opt_params (optimizer s)).*2 →
    heap s_n !! l = heap s !! l.
Proof.
  induction n as [|n IH]; intros s s2 l2 Hc Hl.
  - unfold after_epochs in Hc. cbn in Hc. by simplify_eq.
  - rewrite after_epochs_S in Hc.
    apply bind_Some in Hc as ([s1 l1] & Hn & Hc). cbv beta iota in Hc.
    pose proof (IH _ _ _ Hn Hl) as Hh1.
    assert (opt_params (optimizer s1) = opt_params (optimizer s)) as Hp1.
    { clear Hc Hh1. revert s1 l1 Hn. clear IH.
      induction n as [|k IHk]; intros s1 l1 Hn.
      - unfold after_epochs in Hn. cbn in Hn. by simplify_eq.
      - rewrite after_epochs_S in Hn.
        apply bind_Some in Hn as ([s0 l0] & H0 & Hn). cbv beta iota in Hn.
        apply IHk in H0.
        apply run_epoch_inv in Hn as (? & ? & ? & ? & _ & _ & _ & Hp & _).
        congruence. }
    unfold run_epoch in Hc.
    apply bind_Some in Hc as ([st lt] & Ht & Hv). cbv beta iota in Hv.
    apply (run_phase_heap _ _ _ _ _ _ _ _ _ l) in Ht as [Hht Hpt];
      [|cbn; by rewrite Hp1].
    apply (run_phase_heap _ _ _ _ _ _ _ _ _ l) in Hv as [Hhv _];
      [|by rewrite Hpt; cbn; rewrite Hp1].
    rewrite Hhv, Hht. cbn. done.
Qed.

(** X18.  [train_model] writes no tensor but the parameters the optimizer
    was built on and the parameters of the network: every other tensor in
    the store is after the run what it was before. *)
Theorem train_model_writes_parameters_only model model_name dataloaders sched args
    num_epochs s s' ret l :
  l ∉ (opt_params (optimizer s)).*2 →
  l ∉ (named_parameters model).*2 →
  train_model model model_name dataloaders sched args num_epochs s = Some (s', ret) →
  heap s' !! l = heap s !! l.
Proof.
  intros Hlo Hlm Hc. unfold train_model in Hc.
  apply bind_Some in Hc as ([s1 l1] & Hn & Hc). cbv beta iota in Hc.
  apply bind_Some in Hc as (h & Hload & Hc). injection Hc as <- _. cbn.
  unfold Torch.load_state_dict in Hload.
  rewrite (copy_params_other _ _ _ _ _ Hload Hlm). cbn.
  by eapply after_epochs_heap.
Qed.

End written_tensors.

Lemma train_model_writes_parameters_only_witness :
  (Fixtures.w_loc' ∉ (opt_params (optimizer Fixtures.start2)).*2) ∧
  (Fixtures.w_loc' ∉ (named_parameters Toy.model).*2) ∧
  ∃ s' ret,
    train_model Toy.model Toy.model_name Toy.dataloaders Toy.scheduler Toy.args 2
                Fixtures.start2 = Some (s', ret) ∧
    heap s' !! Fixtures.w_loc' = heap Fixtures.start2 !! Fixtures.w_loc'.
Proof.
  assert (Fixtures.w_loc' ∉ (opt_params (optimizer Fixtures.start2)).*2) as H1.
  { cbn. apply not_elem_of_cons. split; [done|apply not_elem_of_nil]. }
  assert (Fixtures.w_loc' ∉ (named_parameters Toy.model).*2) as H2.
  { cbn. apply not_elem_of_cons. split; [done|apply not_elem_of_nil]. }
  split; [exact H1|]. split; [exact H2|].
  destruct (train_model Toy.model Toy.model_name Toy.dataloaders Toy.scheduler
              Toy.args 2 Fixtures.start2) as [[s' ret]|] eqn:E; [|by vm_compute in E].
  exists s', ret. split; [done|].
  exact (train_model_writes_parameters_only _ _ _ _ _ _ _ _ _ _ H1 H2 E).
Defined.
